(** * ICS generation in the calendar photo converter

    A shallow embedding of the two ICS code paths of the repository:

    - the [CalendarPhotoConverter] component, whose [generateICS] builds an
      iCalendar document from the extracted events with [formatDateToICS];
    - the [PhotoToICSGenerator] component (Photo.jsx), whose [downloadICS]
      saves the text returned by the model.

    JavaScript strings are modelled by [string], time values (milliseconds
    since the epoch) by [Z], a [Date] object by [option Z] ([None] is the
    invalid date), and a thrown exception by the right injection of a sum. *)

From Stdlib Require Import ZArith QArith List String Ascii Bool Lia.
From Stdlib Require Import Decimal DecimalString DecimalFacts DecimalNat.
Import ListNotations.

Local Open Scope string_scope.
Local Open Scope Z_scope.

(** ** Strings *)

Module Str.

Definition LF : ascii := "010"%char.
Definition CR : ascii := "013"%char.

(** [s.split(c)] for a one-character separator. *)
Fixpoint split (c : ascii) (s : string) : list string :=
  match s with
  | EmptyString => [EmptyString]
  | String a s' =>
      if Ascii.eqb a c then EmptyString :: split c s'
      else match split c s' with
           | h :: t => String a h :: t
           | [] => [String a EmptyString]
           end
  end.

(** [s.replace(/[cs]/g, "")]: every character of the class is dropped. *)
Fixpoint remove_chars (cs : list ascii) (s : string) : string :=
  match s with
  | EmptyString => EmptyString
  | String a s' =>
      if existsb (Ascii.eqb a) cs then remove_chars cs s'
      else String a (remove_chars cs s')
  end.

Fixpoint has_char (c : ascii) (s : string) : bool :=
  match s with
  | EmptyString => false
  | String a s' => Ascii.eqb a c || has_char c s'
  end.

Fixpoint all_chars (p : ascii -> bool) (s : string) : bool :=
  match s with
  | EmptyString => true
  | String a s' => p a && all_chars p s'
  end.

(** [s.endsWith(t)] *)
Definition ends_with (t s : string) : bool :=
  let n := String.length s in
  let k := String.length t in
  (k <=? n)%nat && String.eqb (substring (n - k) k s) t.

Definition is_digit (a : ascii) : bool :=
  let n := nat_of_ascii a in ((48 <=? n) && (n <=? 57))%nat.

(** The lines of a document whose lines are separated by line feeds. *)
Definition lines (s : string) : list string := split LF s.

Definition count_lines (l : string) (s : string) : nat :=
  List.length (filter (String.eqb l) (lines s)).

End Str.

(** ** Time values, after ECMA-262, section "Date Objects" *)

Module JSDate.

Definition msPerDay : Z := 86400000.
Definition msPerHour : Z := 3600000.
Definition msPerMinute : Z := 60000.
Definition msPerSecond : Z := 1000.

Definition Day (t : Z) : Z := t / msPerDay.
Definition TimeWithinDay (t : Z) : Z := t mod msPerDay.

Definition DayFromYear (y : Z) : Z :=
  365 * (y - 1970) + (y - 1969) / 4 - (y - 1901) / 100 + (y - 1601) / 400.

Definition InLeapYear_of (y : Z) : Z :=
  if (y mod 4 =? 0) && (negb (y mod 100 =? 0) || (y mod 400 =? 0))
  then 1 else 0.

(** The largest [y] with [DayFromYear y <= d]: an estimate from the mean
    length of the year, then a step of at most one year either way. *)
Definition YearFromDay (d : Z) : Z :=
  let y := 1970 + (d * 400) / 146097 in
  if DayFromYear (y + 1) <=? d then y + 1
  else if DayFromYear y <=? d then y
  else y - 1.

Definition YearFromTime (t : Z) : Z := YearFromDay (Day t).
Definition InLeapYear (t : Z) : Z := InLeapYear_of (YearFromTime t).
Definition DayWithinYear (t : Z) : Z := Day t - DayFromYear (YearFromTime t).

(** Number of days before month [m] (0-based) in a year. *)
Definition DaysBeforeMonth (m leap : Z) : Z :=
  match m with
  | 0 => 0 | 1 => 31 | 2 => 59 + leap | 3 => 90 + leap | 4 => 120 + leap
  | 5 => 151 + leap | 6 => 181 + leap | 7 => 212 + leap | 8 => 243 + leap
  | 9 => 273 + leap | 10 => 304 + leap | _ => 334 + leap
  end.

Definition MonthFromTime (t : Z) : Z :=
  let d := DayWithinYear t in
  let l := InLeapYear t in
  if d <? 31 then 0
  else if d <? 59 + l then 1
  else if d <? 90 + l then 2
  else if d <? 120 + l then 3
  else if d <? 151 + l then 4
  else if d <? 181 + l then 5
  else if d <? 212 + l then 6
  else if d <? 243 + l then 7
  else if d <? 273 + l then 8
  else if d <? 304 + l then 9
  else if d <? 334 + l then 10
  else 11.

Definition DateFromTime (t : Z) : Z :=
  DayWithinYear t - DaysBeforeMonth (MonthFromTime t) (InLeapYear t) + 1.

Definition HourFromTime (t : Z) : Z := (t / msPerHour) mod 24.
Definition MinFromTime (t : Z) : Z := (t / msPerMinute) mod 60.
Definition SecFromTime (t : Z) : Z := (t / msPerSecond) mod 60.
Definition msFromTime (t : Z) : Z := t mod msPerSecond.

Definition DaysInMonth (m leap : Z) : Z :=
  match m with
  | 1 => 28 + leap
  | 3 | 5 | 8 | 10 => 30
  | _ => 31
  end.

(** [MakeDay], [MakeTime] and [MakeDate] on fields that are in range
    (month 0-based). *)
Definition MakeDay (year month date : Z) : Z :=
  DayFromYear year + DaysBeforeMonth month (InLeapYear_of year) + date - 1.
Definition MakeTime (h m s ms : Z) : Z :=
  h * msPerHour + m * msPerMinute + s * msPerSecond + ms.
Definition MakeDate (day time : Z) : Z := day * msPerDay + time.

Definition maxTime : Z := 8640000000000000.

(** [TimeClip]: a time value out of range is NaN. *)
Definition TimeClip (t : Z) : option Z :=
  if (- maxTime <=? t) && (t <=? maxTime) then Some t else None.

End JSDate.

(** ** The host: what the JavaScript engine and the machine decide *)

(** [Date.parse] recognises the ECMAScript date-time string format itself
    and hands every other string to an engine-specific parser; a date-time
    without offset is local time, converted by the host's time zone. *)
Record Host : Type := {
  legacy_parse : string -> option Z;
  utc_of_local : Z -> Z
}.

(** A thrown exception. *)
Inductive exn : Type :=
| RangeError (message : string).

Definition result (A : Type) : Type := (A + exn)%type.

(** A [Date] object is its time value; [None] is the invalid date (NaN). *)
Definition Date : Type := option Z.

Module ISO.
Import JSDate.

Definition digit_char (n : Z) : ascii := ascii_of_nat (48 + Z.to_nat n).
Definition digit_val (a : ascii) : Z := Z.of_nat (nat_of_ascii a) - 48.

(** The [k] low decimal digits of [n], most significant first:
    [String(n).padStart(k, "0")] when [0 <= n < 10^k]. *)
Fixpoint pad (k : nat) (n : Z) : string :=
  match k with
  | O => EmptyString
  | S k' => pad k' (n / 10) ++ String (digit_char (n mod 10)) EmptyString
  end.

(** Years 0 to 9999 take four digits, the others a sign and six digits. *)
Definition year_string (y : Z) : string :=
  if (0 <=? y) && (y <=? 9999) then pad 4 y
  else (if y <? 0 then "-" else "+") ++ pad 6 (Z.abs y).

(** [Date.prototype.toISOString] on a valid time value:
    YYYY-MM-DDTHH:mm:ss.sssZ *)
Definition ISOString (t : Z) : string :=
  year_string (YearFromTime t) ++ "-" ++ pad 2 (MonthFromTime t + 1) ++ "-"
  ++ pad 2 (DateFromTime t) ++ "T" ++ pad 2 (HourFromTime t) ++ ":"
  ++ pad 2 (MinFromTime t) ++ ":" ++ pad 2 (SecFromTime t) ++ "."
  ++ pad 3 (msFromTime t) ++ "Z".

Definition toISOString (d : Date) : result string :=
  match d with
  | Some t => inl (ISOString t)
  | None => inr (RangeError "Invalid time value")
  end.

(** Reading exactly [k] decimal digits. *)
Fixpoint read_digits (k : nat) (acc : Z) (s : string) : option (Z * string) :=
  match k with
  | O => Some (acc, s)
  | S k' =>
      match s with
      | String a s' =>
          if Str.is_digit a then read_digits k' (10 * acc + digit_val a) s'
          else None
      | EmptyString => None
      end
  end.

Definition read_char (c : ascii) (s : string) : option string :=
  match s with
  | String a s' => if Ascii.eqb a c then Some s' else None
  | EmptyString => None
  end.

Definition read_year (s : string) : option (Z * string) :=
  match s with
  | String a s' =>
      if Ascii.eqb a "+" then read_digits 6 0 s'
      else if Ascii.eqb a "-" then
        match read_digits 6 0 s' with
        | Some (y, r) => if y =? 0 then None else Some (- y, r)
        | None => None
        end
      else read_digits 4 0 s
  | EmptyString => None
  end.

(** Optional milliseconds, then either nothing (local time) or [Z] (UTC). *)
Definition read_tail (s : string) : option (Z * bool) :=
  let after (ms : Z) (r : string) :=
    match r with
    | EmptyString => Some (ms, false)
    | String a EmptyString => if Ascii.eqb a "Z" then Some (ms, true) else None
    | _ => None
    end in
  match s with
  | String a s' =>
      if Ascii.eqb a "." then
        match read_digits 3 0 s' with
        | Some (ms, r) => after ms r
        | None => None
        end
      else after 0 s
  | EmptyString => after 0 s
  end.

Notation "'do' x <- c ; k" :=
  (match c with Some x => k | None => None end)
  (at level 10, x pattern, c at level 100, k at level 200, only parsing).

(** The complete date-time forms of the format, with every field in its
    legal range.  The result is the time value the fields denote and whether
    it is UTC; [None] means the string is left to the engine's own parser. *)
Definition iso_parse (s : string) : option (Z * bool) :=
  do (y, s) <- read_year s;
  do s <- read_char "-" s;
  do (mo, s) <- read_digits 2 0 s;
  do s <- read_char "-" s;
  do (d, s) <- read_digits 2 0 s;
  do s <- read_char "T" s;
  do (h, s) <- read_digits 2 0 s;
  do s <- read_char ":" s;
  do (mi, s) <- read_digits 2 0 s;
  do s <- read_char ":" s;
  do (se, s) <- read_digits 2 0 s;
  do (ms, utc) <- read_tail s;
  if (1 <=? mo) && (mo <=? 12) && (1 <=? d)
     && (d <=? DaysInMonth (mo - 1) (InLeapYear_of y))
     && (h <=? 23) && (mi <=? 59) && (se <=? 59)
  then Some (MakeDate (MakeDay y (mo - 1) d) (MakeTime h mi se ms), utc)
  else None.

Definition Date_parse (H : Host) (s : string) : option Z :=
  match iso_parse s with
  | Some (t, true) => Some t
  | Some (t, false) => Some (utc_of_local H t)
  | None => legacy_parse H s
  end.

(** [new Date(s)] *)
Definition new_Date (H : Host) (s : string) : Date :=
  match Date_parse H s with
  | Some t => TimeClip t
  | None => None
  end.

End ISO.

(** ** The calendar photo converter (CalendarPhotoConverter) *)

Module Converter.
Import ISO.

Record CalendarEvent : Type := {
  title : string;
  start : string;
  end_ : string;
  location : option string;
  description : option string
}.

(** The line feed written as an escape in the source's literals. *)
Definition nl : string := String Str.LF EmptyString.

(** [String(n)] for an integer time value and for an array index. *)
Definition Number_toString (n : Z) : string :=
  NilZero.string_of_int (Z.to_int n).
Definition index_toString (i : nat) : string :=
  NilZero.string_of_uint (Nat.to_uint i).

(** Truthiness of an optional string property: absent and empty are falsy. *)
Definition truthy (o : option string) : bool :=
  match o with
  | Some (String _ _) => true
  | _ => false
  end.

(** Interpolation of an optional string that passed the truthiness test. *)
Definition text_of (o : option string) : string :=
  match o with
  | Some s => s
  | None => "undefined"
  end.

Definition formatDateToICS (H : Host) (dateStr : string) : result string :=
  let date := new_Date H dateStr in
  match toISOString date with
  | inl iso =>
      inl (hd EmptyString (Str.split "." (Str.remove_chars ["-"; ":"]%char iso))
           ++ "Z")
  | inr e => inr e
  end.

(** *** Effects of one run of [generateICS]

    The run reads the system clock ([Date.now()], [new Date()]) and appends
    to its local variable [icsContent].  [clock n] is what the [n]-th read of
    the clock during the run returns. *)

Record Run : Type := {
  reads : nat;
  icsContent : string
}.

Definition M (A : Type) : Type := Run -> result A * Run.

Definition ret {A : Type} (a : A) : M A := fun st => (inl a, st).

Definition bind {A B : Type} (m : M A) (k : A -> M B) : M B :=
  fun st =>
    match m st with
    | (inl a, st') => k a st'
    | (inr e, st') => (inr e, st')
    end.

Notation "x <- m ;; k" := (bind m (fun x => k))
  (at level 61, m at next level, right associativity).
Notation "m ;; k" := (bind m (fun _ => k))
  (at level 61, right associativity).

(** A call that may throw. *)
Definition call {A : Type} (r : result A) : M A := fun st => (r, st).

(** [icsContent += s] *)
Definition append_ics (s : string) : M unit :=
  fun st => (inl tt, {| reads := reads st; icsContent := icsContent st ++ s |}).

Definition get_ics : M string := fun st => (inl (icsContent st), st).

Section Clock.
Variable clock : nat -> Z.

Definition read_clock : M Z :=
  fun st =>
    (inl (clock (reads st)),
     {| reads := S (reads st); icsContent := icsContent st |}).

(** [Date.now()] *)
Definition Date_now : M Z := read_clock.

(** [new Date()] *)
Definition new_Date_now : M Date := t <- read_clock ;; ret (Some t).

End Clock.

(** [xs.forEach((x, index) => f x index)], from position [i] on. *)
Fixpoint forEach_from {A : Type} (f : A -> nat -> M unit) (i : nat)
  (xs : list A) : M unit :=
  match xs with
  | [] => ret tt
  | x :: xs' => f x i ;; forEach_from f (S i) xs'
  end.

Definition forEach {A : Type} (xs : list A) (f : A -> nat -> M unit) : M unit :=
  forEach_from f O xs.

Definition header : string :=
  "BEGIN:VCALENDAR" ++ nl ++ "VERSION:2.0" ++ nl
  ++ "PRODID:-//Calendar Photo Converter//EN" ++ nl.

Section Encoder.
Variable H : Host.
Variable clock : nat -> Z.

(** The callback of [events.forEach]. *)
Definition event_body (event : CalendarEvent) (index : nat) : M unit :=
  append_ics ("BEGIN:VEVENT" ++ nl) ;;
  now <- Date_now clock ;;
  append_ics ("UID:" ++ Number_toString now ++ "-" ++ index_toString index
              ++ "@calendar-converter" ++ nl) ;;
  d <- new_Date_now clock ;;
  iso <- call (toISOString d) ;;
  stamp <- call (formatDateToICS H iso) ;;
  append_ics ("DTSTAMP:" ++ stamp ++ nl) ;;
  dtstart <- call (formatDateToICS H (start event)) ;;
  append_ics ("DTSTART:" ++ dtstart ++ nl) ;;
  dtend <- call (formatDateToICS H (end_ event)) ;;
  append_ics ("DTEND:" ++ dtend ++ nl) ;;
  append_ics ("SUMMARY:" ++ title event ++ nl) ;;
  (if truthy (location event)
   then append_ics ("LOCATION:" ++ text_of (location event) ++ nl)
   else ret tt) ;;
  (if truthy (description event)
   then append_ics ("DESCRIPTION:" ++ text_of (description event) ++ nl)
   else ret tt) ;;
  append_ics ("END:VEVENT" ++ nl).

Definition generateICS_run (events : list CalendarEvent) : M string :=
  forEach events event_body ;;
  append_ics "END:VCALENDAR" ;;
  get_ics.

(** [generateICS()], with the component's [events] and a fresh
    [icsContent] holding the calendar header. *)
Definition generateICS (events : list CalendarEvent) : result string :=
  fst (generateICS_run events {| reads := O; icsContent := header |}).

End Encoder.

End Converter.

(** ** A minimal decoder of generated documents

    The repository has no decoder.  The one below is modelled from the
    specification's round-trip property: a minimal parser that reads the
    [SUMMARY], [DTSTART], [DTEND], [LOCATION] and [DESCRIPTION] lines of
    each [VEVENT] block. *)

Module Decoder.
Import JSDate ISO.

(** An event as a calendar holds it: the text fields and the two instants
    as UTC time values. *)
Record Decoded : Type := {
  d_title : string;
  d_start : Z;
  d_end : Z;
  d_location : option string;
  d_description : option string
}.

(** Modelled from the spec: the decoder's reading of a timestamp, absent
    from the repository.  The value of [YYYYMMDDTHHMMSSZ] as a UTC time
    value. *)
Definition parse_utc (v : string) : option Z :=
  do (y, s) <- read_digits 4 0 v;
  do (mo, s) <- read_digits 2 0 s;
  do (d, s) <- read_digits 2 0 s;
  do s <- read_char "T" s;
  do (h, s) <- read_digits 2 0 s;
  do (mi, s) <- read_digits 2 0 s;
  do (se, s) <- read_digits 2 0 s;
  do s <- read_char "Z" s;
  match s with
  | EmptyString =>
      if (1 <=? mo) && (mo <=? 12) && (1 <=? d)
         && (d <=? DaysInMonth (mo - 1) (InLeapYear_of y))
         && (h <=? 23) && (mi <=? 59) && (se <=? 59)
      then Some (MakeDate (MakeDay y (mo - 1) d) (MakeTime h mi se 0))
      else None
  | _ => None
  end.

(** [strip p s] is the rest of [s] after its prefix [p]. *)
Fixpoint strip (p s : string) : option string :=
  match p with
  | EmptyString => Some s
  | String a p' =>
      match s with
      | String b s' => if Ascii.eqb a b then strip p' s' else None
      | EmptyString => None
      end
  end.

(** The event being read: the properties seen since [BEGIN:VEVENT]. *)
Record Partial : Type := {
  p_title : option string;
  p_start : option Z;
  p_end : option Z;
  p_location : option string;
  p_description : option string
}.

Definition blank : Partial :=
  {| p_title := None; p_start := None; p_end := None;
     p_location := None; p_description := None |}.

Definition finish (p : Partial) : option Decoded :=
  match p_title p, p_start p, p_end p with
  | Some t, Some s, Some e =>
      Some {| d_title := t; d_start := s; d_end := e;
              d_location := p_location p;
              d_description := p_description p |}
  | _, _, _ => None
  end.

(** One property line inside an event. *)
Definition property (line : string) (p : Partial) : option Partial :=
  match strip "SUMMARY:" line with
  | Some v =>
      Some {| p_title := Some v; p_start := p_start p; p_end := p_end p;
              p_location := p_location p; p_description := p_description p |}
  | None =>
  match strip "DTSTART:" line with
  | Some v =>
      do t <- parse_utc v;
      Some {| p_title := p_title p; p_start := Some t; p_end := p_end p;
              p_location := p_location p; p_description := p_description p |}
  | None =>
  match strip "DTEND:" line with
  | Some v =>
      do t <- parse_utc v;
      Some {| p_title := p_title p; p_start := p_start p; p_end := Some t;
              p_location := p_location p; p_description := p_description p |}
  | None =>
  match strip "LOCATION:" line with
  | Some v =>
      Some {| p_title := p_title p; p_start := p_start p; p_end := p_end p;
              p_location := Some v; p_description := p_description p |}
  | None =>
  match strip "DESCRIPTION:" line with
  | Some v =>
      Some {| p_title := p_title p; p_start := p_start p; p_end := p_end p;
              p_location := p_location p; p_description := Some v |}
  | None => Some p
  end end end end end.

(** Modelled from the spec: the decoder's pass over the lines, absent from
    the repository.  The lines are read in order, with the open event, if
    any, and the events closed so far. *)
Fixpoint decode_lines (ls : list string) (cur : option Partial)
  (done : list Decoded) : option (list Decoded) :=
  match ls with
  | [] => match cur with None => Some (List.rev done) | Some _ => None end
  | l :: ls' =>
      match cur with
      | None =>
          if String.eqb l "BEGIN:VEVENT" then decode_lines ls' (Some blank) done
          else decode_lines ls' None done
      | Some p =>
          if String.eqb l "END:VEVENT" then
            do e <- finish p; decode_lines ls' None (e :: done)
          else
            do p' <- property l p; decode_lines ls' (Some p') done
      end
  end.

(** Modelled from the spec: the minimal decoder of the round-trip property,
    absent from the repository.  It fails ([None]) on a timestamp it cannot
    read and on a block without summary, start or end. *)
Definition decode (doc : string) : option (list Decoded) :=
  decode_lines (Str.lines doc) None [].

End Decoder.

(** ** The photo to ICS generator (Photo.jsx) *)

Module Photo.

(** The values [icsData] can hold: a string, or [undefined] when the first
    content block of the response carries no text. *)
Inductive JsValue : Type :=
| JsString (s : string)
| JsUndefined.

Definition ToString (v : JsValue) : string :=
  match v with
  | JsString s => s
  | JsUndefined => "undefined"
  end.

Record State : Type := {
  loading : bool;
  error : string;
  success : string;
  icsData : JsValue
}.

Record ContentBlock : Type := {
  block_type : string;
  text : JsValue
}.

Record Response : Type := {
  ok : bool;
  error_message : option string;
  content : list ContentBlock
}.

(** The part of [generateICS] that runs when the response has arrived
    ([error_message] is [errorData.error?.message]; the message of the
    [TypeError] on an empty [content] is the engine's). *)
Definition on_response (r : Response) (st : State) : State :=
  if ok r then
    match content r with
    | b :: _ =>
        {| loading := false; error := error st;
           success := "ICS generated successfully!"; icsData := text b |}
    | [] =>
        {| loading := false;
           error := "API Error: Cannot read properties of undefined (reading 'text')";
           success := success st; icsData := icsData st |}
    end
  else
    {| loading := false;
       error := "API Error: " ++ match error_message r with
                                 | Some (String a m) => String a m
                                 | _ => "API request failed"
                                 end;
       success := success st; icsData := icsData st |}.

Record Blob : Type := {
  blob_text : string;
  blob_type : string
}.

(** [new Blob(parts, { type })]: the parts, converted to strings, in order. *)
Definition new_Blob (parts : list JsValue) (type : string) : Blob :=
  {| blob_text := String.concat "" (map ToString parts); blob_type := type |}.

Record Anchor : Type := {
  href : option Blob;
  download : option string
}.

Record SavedFile : Type := {
  file_name : string;
  file_type : string;
  file_content : string
}.

(** The document: the anchors attached to the body and the files saved. *)
Record Browser : Type := {
  body : list Anchor;
  saved : list SavedFile
}.

Definition appendChild (a : Anchor) (b : Browser) : Browser :=
  {| body := body b ++ [a]; saved := saved b |}.

(** [document.body.removeChild(element)] for the element appended last. *)
Definition removeChild (b : Browser) : Browser :=
  {| body := removelast (body b); saved := saved b |}.

(** Clicking an anchor that has a [download] name and a blob URL saves the
    blob under that name. *)
Definition click (a : Anchor) (b : Browser) : Browser :=
  match href a, download a with
  | Some blob, Some name =>
      {| body := body b;
         saved := saved b ++ [{| file_name := name;
                                 file_type := blob_type blob;
                                 file_content := blob_text blob |}] |}
  | _, _ => b
  end.

Definition downloadICS (st : State) (b : Browser) : Browser :=
  let file := new_Blob [icsData st] "text/calendar" in
  let element := {| href := Some file; download := Some "calendar.ics" |} in
  removeChild (click element (appendChild element b)).

End Photo.

(** ** The layout of a generated document

    The lines [generateICS] writes, one list entry per [icsContent +=] of
    the source (each without its final line feed), and the document as the
    lines joined by line feeds. *)

Module Layout.
Import ISO Converter.

(** The string a call returned (the empty string if it threw). *)
Definition value_of (r : result string) : string :=
  match r with
  | inl v => v
  | inr _ => EmptyString
  end.

Definition uid_line (now : Z) (index : nat) : string :=
  "UID:" ++ Number_toString now ++ "-" ++ index_toString index
  ++ "@calendar-converter".

Definition optional_line (name : string) (o : option string) : list string :=
  if truthy o then [name ++ text_of o] else [].

(** The lines of one event: [now1] is what [Date.now()] returned and [now2]
    the time value of [new Date()]. *)
Definition event_lines (H : Host) (now1 now2 : Z) (index : nat)
  (event : CalendarEvent) : list string :=
  ["BEGIN:VEVENT";
   uid_line now1 index;
   "DTSTAMP:" ++ value_of (formatDateToICS H (ISOString now2));
   "DTSTART:" ++ value_of (formatDateToICS H (start event));
   "DTEND:" ++ value_of (formatDateToICS H (end_ event));
   "SUMMARY:" ++ title event]
  ++ optional_line "LOCATION:" (location event)
  ++ optional_line "DESCRIPTION:" (description event)
  ++ ["END:VEVENT"].

(** The event at position [i] makes the clock reads [2 i] and [2 i + 1]. *)
Fixpoint events_lines (H : Host) (clock : nat -> Z) (i : nat)
  (events : list CalendarEvent) : list string :=
  match events with
  | [] => []
  | e :: es =>
      event_lines H (clock (2 * i)%nat) (clock (2 * i + 1)%nat) i e
      ++ events_lines H clock (S i) es
  end.

Definition header_lines : list string :=
  ["BEGIN:VCALENDAR"; "VERSION:2.0"; "PRODID:-//Calendar Photo Converter//EN"].

Definition calendar_lines (H : Host) (clock : nat -> Z)
  (events : list CalendarEvent) : list string :=
  header_lines ++ events_lines H clock O events ++ ["END:VCALENDAR"].

(** The lines [b] are the block of the event [e]: opened by [BEGIN:VEVENT]
    and closed by [END:VEVENT], neither of which occurs in between, with
    the summary of [e] among its properties. *)
Definition event_block (e : CalendarEvent) (b : list string) : Prop :=
  exists mid,
    b = "BEGIN:VEVENT" :: mid ++ ["END:VEVENT"]
    /\ In ("SUMMARY:" ++ title e) mid
    /\ ~ In "BEGIN:VEVENT" mid /\ ~ In "END:VEVENT" mid.

(** Lines separated by single line feeds, none after the last. *)
Definition join_lines (ls : list string) : string := String.concat nl ls.

(** The pattern [^\d{8}T\d{6}Z$]. *)
Fixpoint digits_then (k : nat) (rest : string -> bool) (s : string) : bool :=
  match k with
  | O => rest s
  | S k' =>
      match s with
      | String a s' => Str.is_digit a && digits_then k' rest s'
      | EmptyString => false
      end
  end.

Definition is_basic_utc (v : string) : bool :=
  digits_then 8
    (fun s => match s with
              | String a s' =>
                  Ascii.eqb a "T" && digits_then 6 (fun z => String.eqb z "Z") s'
              | EmptyString => false
              end) v.

(** The UTC fields of a time value as [YYYYMMDDTHHMMSSZ]. *)
Definition basic_utc (t : Z) : string :=
  pad 4 (JSDate.YearFromTime t) ++ pad 2 (JSDate.MonthFromTime t + 1)
  ++ pad 2 (JSDate.DateFromTime t) ++ "T" ++ pad 2 (JSDate.HourFromTime t)
  ++ pad 2 (JSDate.MinFromTime t) ++ pad 2 (JSDate.SecFromTime t) ++ "Z".

(** Whether a line begins with a property name. *)
Definition is_property (name line : string) : bool :=
  match Decoder.strip name line with
  | Some _ => true
  | None => false
  end.

(** No text property of the event holds the character [c]. *)
Definition free_of (c : ascii) (e : CalendarEvent) : bool :=
  negb (Str.has_char c (title e))
  && negb (Str.has_char c (text_of (location e)))
  && negb (Str.has_char c (text_of (description e))).

(** Line terminators: neither digits nor punctuation of the formats. *)
Definition terminator (c : ascii) : Prop := c = Str.LF \/ c = Str.CR.

(** The text properties of an event hold no line feed. *)
Definition single_line (e : CalendarEvent) : bool := free_of Str.LF e.

Definition no_CR (e : CalendarEvent) : bool := free_of Str.CR e.

(** [new Date(s)] is a valid date. *)
Definition parses (H : Host) (s : string) : bool :=
  match new_Date H s with
  | Some _ => true
  | None => false
  end.

(** Both instants of the event parse. *)
Definition parseable (H : Host) (e : CalendarEvent) : bool :=
  parses H (start e) && parses H (end_ e).

(** Every conversion of the run succeeds: for the event at position [i],
    that of the ISO string of the current time and those of its instants. *)
Fixpoint run_ok (H : Host) (clock : nat -> Z) (i : nat)
  (events : list CalendarEvent) : bool :=
  match events with
  | [] => true
  | e :: es =>
      parses H (ISOString (clock (2 * i + 1)%nat)) && parseable H e
      && run_ok H clock (S i) es
  end.

(** Lines each followed by a line feed. *)
Definition terminated (ls : list string) : string :=
  String.concat "" (map (fun l => l ++ nl) ls).

(** The clock shows time values, which are in the range of [TimeClip]. *)
Definition clock_ok (clock : nat -> Z) : Prop :=
  forall n, - JSDate.maxTime <= clock n <= JSDate.maxTime.

(** The year of the instant takes four digits. *)
Definition year4 (t : Z) : Prop := 0 <= JSDate.YearFromTime t <= 9999.

(** The date is valid, in a year of four digits, on a whole second. *)
Definition whole_second4 (d : Date) : bool :=
  match d with
  | Some t =>
      (0 <=? JSDate.YearFromTime t) && (JSDate.YearFromTime t <=? 9999)
      && (JSDate.msFromTime t =? 0)
  | None => false
  end.

(** An event the document represents in full: text properties of one line
    and instants that [YYYYMMDDTHHMMSSZ] can express. *)
Definition representable (H : Host) (e : CalendarEvent) : bool :=
  single_line e
  && whole_second4 (new_Date H (start e))
  && whole_second4 (new_Date H (end_ e)).

(** What a decoder can recover of an event: the text properties (an empty
    optional one counts as absent) and the instants as UTC time values. *)
Definition instant (H : Host) (s : string) : Z :=
  match new_Date H s with
  | Some t => t
  | None => 0
  end.

Definition normalize (H : Host) (e : CalendarEvent) : Decoder.Decoded :=
  {| Decoder.d_title := title e;
     Decoder.d_start := instant H (start e);
     Decoder.d_end := instant H (end_ e);
     Decoder.d_location := if truthy (location e) then location e else None;
     Decoder.d_description :=
       if truthy (description e) then description e else None |}.

(** A host for examples: UTC as the local time zone and an engine-specific
    parser that recognises nothing. *)
Definition utc_host : Host :=
  {| legacy_parse := fun _ => None; utc_of_local := fun t => t |}.

(** Both instants are valid dates in years of four digits. *)
Definition four_digit (d : Date) : bool :=
  match d with
  | Some t => (0 <=? JSDate.YearFromTime t) && (JSDate.YearFromTime t <=? 9999)
  | None => false
  end.

Definition timed4 (H : Host) (e : CalendarEvent) : bool :=
  four_digit (new_Date H (start e)) && four_digit (new_Date H (end_ e)).

End Layout.

(** ** Sample data *)

Module Sample.
Import Converter Layout.

(** 2025-01-01T00:00:00Z, shown by the clock during the whole run. *)
Definition new_year : nat -> Z := fun _ => 1735689600000.

(** The same instant at the start of the run, one millisecond later from
    the third read on. *)
Definition ticking : nat -> Z :=
  fun n => if (n <? 2)%nat then 1735689600000 else 1735689600001.

Definition midterm : CalendarEvent :=
  {| title := "Midterm";
     start := "2025-03-10T09:00:00";
     end_ := "2025-03-10T10:30:00";
     location := None;
     description := None |}.

Definition lecture : CalendarEvent :=
  {| title := "Lecture";
     start := "2025-03-11T14:00:00";
     end_ := "2025-03-11T15:00:00";
     location := Some "Room 101";
     description := Some "Bring notes" |}.

(** The end precedes the start. *)
Definition backwards : CalendarEvent :=
  {| title := "Backwards";
     start := "2025-03-10T10:30:00";
     end_ := "2025-03-10T09:00:00";
     location := Some "";
     description := None |}.

(** A title of two lines, the second of which reads as the opening of an
    event. *)
Definition two_line_title : CalendarEvent :=
  {| title := "Review" ++ nl ++ "BEGIN:VEVENT";
     start := "2025-03-10T09:00:00";
     end_ := "2025-03-10T10:30:00";
     location := None;
     description := None |}.

(** No location, and a description whose second line reads as one. *)
Definition two_line_description : CalendarEvent :=
  {| title := "Office hours";
     start := "2025-03-10T09:00:00";
     end_ := "2025-03-10T10:30:00";
     location := None;
     description := Some ("Ask at the desk" ++ nl ++ "LOCATION:Room 7") |}.

(** A title of two lines, the second of which reads as a location. *)
Definition smuggled : CalendarEvent :=
  {| title := "Office hours" ++ nl ++ "LOCATION:Room 7";
     start := "2025-03-10T09:00:00";
     end_ := "2025-03-10T10:30:00";
     location := None;
     description := None |}.

(** The second line of the title of [smuggled] given as the location. *)
Definition in_room_7 : CalendarEvent :=
  {| title := "Office hours";
     start := "2025-03-10T09:00:00";
     end_ := "2025-03-10T10:30:00";
     location := Some "Room 7";
     description := None |}.

(** An event that starts in the year 10000. *)
Definition far_future : CalendarEvent :=
  {| title := "Reunion";
     start := "+010000-01-01T00:00:00Z";
     end_ := "+010000-01-01T01:00:00Z";
     location := None;
     description := None |}.

(** An event whose end is no date. *)
Definition open_ended : CalendarEvent :=
  {| title := "Open house";
     start := "2025-03-10T09:00:00";
     end_ := "late";
     location := None;
     description := None |}.

(** An instant that is not on a whole second. *)
Definition half_second : CalendarEvent :=
  {| title := "Start of the race";
     start := "2025-03-10T09:00:00.500";
     end_ := "2025-03-10T10:30:00";
     location := None;
     description := None |}.

(** A machine on the time of Kolkata, five and a half hours ahead of UTC,
    with an engine-specific parser that recognises nothing. *)
Definition kolkata : Host :=
  {| legacy_parse := fun _ => None; utc_of_local := fun t => t - 19800000 |}.

End Sample.

(** ** Text clean-up of the model's answer

    Both components that parse JSON strip markdown code fences from the
    answer with a global regular expression and trim the result. *)

Module Text.

(** [s.startsWith(p)] *)
Fixpoint starts_with (p s : string) : bool :=
  match p with
  | EmptyString => true
  | String a p' =>
      match s with
      | String b s' => Ascii.eqb a b && starts_with p' s'
      | EmptyString => false
      end
  end.

(** The three backticks of a code fence. *)
Definition fence : string := "```".

(** A fence occurs somewhere in the text. *)
Fixpoint has_fence (s : string) : bool :=
  starts_with fence s
  || match s with
     | String _ s' => has_fence s'
     | EmptyString => false
     end.

(** [s.replace(re, "")] for a global regular expression: [m s] is the
    length of the match of [re] at the start of [s], if there is one.  The
    scan goes from left to right; a match is dropped and the scan resumes
    after it ([skip] counts the characters of the match still to drop). *)
Fixpoint replace_all (m : string -> option nat) (skip : nat) (s : string)
  : string :=
  match s with
  | EmptyString => EmptyString
  | String a s' =>
      match skip with
      | S k => replace_all m k s'
      | O =>
          match m s with
          | Some (S k) => replace_all m k s'
          | _ => String a (replace_all m O s')
          end
      end
  end.

(** The character at position [n] is a line feed. *)
Definition LF_at (n : nat) (s : string) : bool :=
  match String.get n s with
  | Some c => Ascii.eqb c Str.LF
  | None => false
  end.

(** The expression of the calendar converter: a fence with or without the
    word [json]. *)
Definition fence_json (s : string) : option nat :=
  if starts_with "```json" s then Some 7%nat
  else if starts_with "```" s then Some 3%nat
  else None.

(** The expression of the course advisor: the same, each alternative with
    an optional line feed after it. *)
Definition fence_json_nl (s : string) : option nat :=
  if starts_with "```json" s then Some (if LF_at 7 s then 8 else 7)%nat
  else if starts_with "```" s then Some (if LF_at 3 s then 4 else 3)%nat
  else None.

(** White space and line terminators among the code units below 256. *)
Definition is_space (a : ascii) : bool :=
  let n := nat_of_ascii a in
  (((9 <=? n) && (n <=? 13)) || (n =? 32) || (n =? 160))%nat.

Fixpoint trim_start (s : string) : string :=
  match s with
  | EmptyString => EmptyString
  | String a s' => if is_space a then trim_start s' else s
  end.

Fixpoint trim_end (s : string) : string :=
  match s with
  | EmptyString => EmptyString
  | String a s' =>
      match trim_end s' with
      | EmptyString => if is_space a then EmptyString else String a EmptyString
      | r => String a r
      end
  end.

(** [s.trim()] *)
Definition trim (s : string) : string := trim_end (trim_start s).

End Text.

(** ** The calendar photo converter: from the upload to the events *)

Module Upload.
Import Converter.

(** An item of [data.content]. *)
Record ContentItem : Type := {
  item_type : string;
  item_text : option string
}.

(** [item.text || ""] *)
Definition text_or_empty (item : ContentItem) : string :=
  match item_text item with
  | Some (String a t) => String a t
  | _ => EmptyString
  end.

(** The texts of the items of type [text], joined. *)
Definition textContent (content : list ContentItem) : string :=
  String.concat ""
    (map text_or_empty
       (filter (fun item => String.eqb (item_type item) "text") content)).

Definition cleanedText (content : list ContentItem) : string :=
  Text.trim (Text.replace_all Text.fence_json O (textContent content)).

(** What [JSON.parse] returned: an array, whose elements the source takes
    to be events, or something else. *)
Inductive Parsed : Type :=
| NotArray
| Events (es : list CalendarEvent).

(** [JSON.parse] is the engine's; [None] stands for its [SyntaxError]. *)
Record Env : Type := {
  JSON_parse : string -> option Parsed
}.

(** How the request ended: [fetch] or [response.json()] rejected, or a
    body arrived, with or without [content]. *)
Inductive Fetched : Type :=
| Rejected
| Data (content : option (list ContentItem)).

Record State : Type := {
  image : option string;
  events : list CalendarEvent;
  loading : bool;
  error : string
}.

Definition initial : State :=
  {| image := None; events := []; loading := false; error := "" |}.

Definition setError (msg : string) (st : State) : State :=
  {| image := image st; events := events st; loading := loading st;
     error := msg |}.

Definition setEvents (es : list CalendarEvent) (st : State) : State :=
  {| image := image st; events := es; loading := loading st;
     error := error st |}.

Definition setLoading (b : bool) (st : State) : State :=
  {| image := image st; events := events st; loading := b;
     error := error st |}.

Definition setImage (url : string) (st : State) : State :=
  {| image := Some url; events := events st; loading := loading st;
     error := error st |}.

Definition no_events_message : string :=
  "No events found in the image. Please try a clearer photo.".

Definition failure_message : string :=
  "Failed to process the image. Please ensure it contains a visible calendar and try again.".

(** [result.split(",")[1]]: [None] is [undefined]. *)
Definition base64_of (result : string) : option string :=
  nth_error (Str.split "," result) 1.

(** [processImage] up to its first [await]. *)
Definition processImage_start (st : State) : State :=
  setError "" (setLoading true st).

(** The body of the [try] of [processImage] once the request has ended:
    the new state, or [None] when it throws. *)
Definition processImage_try (env : Env) (f : Fetched) (st : State)
  : option State :=
  match f with
  | Rejected => None
  | Data None => None
  | Data (Some []) => None
  | Data (Some content) =>
      match JSON_parse env (cleanedText content) with
      | None => None
      | Some (Events (e :: es)) => Some (setEvents (e :: es) st)
      | Some _ => Some (setError no_events_message st)
      end
  end.

(** [processImage] from the end of the request on: [try], [catch] and
    [finally]. *)
Definition processImage_finish (env : Env) (f : Fetched) (st : State)
  : State :=
  setLoading false
    (match processImage_try env f st with
     | Some st' => st'
     | None => setError failure_message st
     end).

(** [handleImageUpload] when a file was chosen, before the file is read. *)
Definition handleImageUpload_start (st : State) : State :=
  setEvents [] (setError "" st).

(** [reader.onload] with the data URL [result], up to the request. *)
Definition onload_start (result : string) (st : State) : State :=
  processImage_start (setImage result st).

(** What can happen to the component.  The handlers run between their
    [await]s, and the file input stays enabled the while, so that the steps
    of several uploads can alternate: a file list is chosen ([has_file]
    tells whether it holds a file), a file has been read as the data URL
    [result], or a request has ended. *)
Inductive Action : Type :=
| Choose (has_file : bool)
| Loaded (result : string)
| Settled (f : Fetched).

Definition step (env : Env) (a : Action) (st : State) : State :=
  match a with
  | Choose true => handleImageUpload_start st
  | Choose false => st
  | Loaded result => onload_start result st
  | Settled f => processImage_finish env f st
  end.

Definition run (env : Env) (actions : list Action) (st : State) : State :=
  fold_left (fun st a => step env a st) actions st.

End Upload.

(** ** The photo to ICS generator: the file and the request *)

Module PhotoUI.

Record File : Type := {
  name : string;
  type : string
}.

(** The component: the chosen file, the drag flag and the rest of the
    state. *)
Record UI : Type := {
  file : option File;
  dragActive : bool;
  core : Photo.State
}.

Definition initial : UI :=
  {| file := None; dragActive := false;
     core := {| Photo.loading := false; Photo.error := "";
                Photo.success := ""; Photo.icsData := Photo.JsString "" |} |}.

Definition is_image (f : File) : bool := Text.starts_with "image/" (type f).

Definition with_error (msg : string) (c : Photo.State) : Photo.State :=
  {| Photo.loading := Photo.loading c; Photo.error := msg;
     Photo.success := Photo.success c; Photo.icsData := Photo.icsData c |}.

Definition handleDrag (event_type : string) (u : UI) : UI :=
  if String.eqb event_type "dragenter" || String.eqb event_type "dragover"
  then {| file := file u; dragActive := true; core := core u |}
  else if String.eqb event_type "dragleave"
  then {| file := file u; dragActive := false; core := core u |}
  else u.

(** The choice of the first file of a list, with the message shown when it
    is no image. *)
Definition choose (files : list File) (refusal : string) (u : UI) : UI :=
  match files with
  | f :: _ =>
      if is_image f
      then {| file := Some f; dragActive := dragActive u;
              core := with_error "" (core u) |}
      else {| file := file u; dragActive := dragActive u;
              core := with_error refusal (core u) |}
  | [] => u
  end.

Definition handleDrop (files : list File) (u : UI) : UI :=
  choose files "Please drop an image file"
    {| file := file u; dragActive := false; core := core u |}.

Definition handleFileChange (files : list File) (u : UI) : UI :=
  choose files "Please select an image file" u.

(** What [generateICS] sends: the media type of the file and the part of
    the data URL after the first comma. *)
Record Request : Type := {
  media_type : string;
  data : option string
}.

(** [generateICS] up to the reading of the file; [api_key] tells whether
    the key is configured. *)
Definition generateICS_start (api_key : bool) (u : UI) : UI :=
  match file u with
  | None =>
      {| file := file u; dragActive := dragActive u;
         core := with_error "Please select an image first" (core u) |}
  | Some _ =>
      if api_key then
        {| file := file u; dragActive := dragActive u;
           core := {| Photo.loading := true; Photo.error := "";
                      Photo.success := "";
                      Photo.icsData := Photo.icsData (core u) |} |}
      else
        {| file := file u; dragActive := dragActive u;
           core := with_error
                     "API key not configured. Please set REACT_APP_ANTHROPIC_API_KEY environment variable."
                     (core u) |}
  end.

(** The request [reader.onload] sends for the data URL [result]. *)
Definition request_of (u : UI) (result : string) : option Request :=
  match file u with
  | Some f =>
      Some {| media_type := type f; data := Upload.base64_of result |}
  | None => None
  end.

(** [reader.onerror] *)
Definition read_failed (u : UI) : UI :=
  {| file := file u; dragActive := dragActive u;
     core := {| Photo.loading := false; Photo.error := "Failed to read file";
                Photo.success := Photo.success (core u);
                Photo.icsData := Photo.icsData (core u) |} |}.

(** What can happen to the component. *)
Inductive Action : Type :=
| Drag (event_type : string)
| Drop (files : list File)
| FileChange (files : list File)
| Generate
| Responded (r : Photo.Response)
| ReadFailed.

Definition step (api_key : bool) (a : Action) (u : UI) : UI :=
  match a with
  | Drag t => handleDrag t u
  | Drop fs => handleDrop fs u
  | FileChange fs => handleFileChange fs u
  | Generate => generateICS_start api_key u
  | Responded r =>
      {| file := file u; dragActive := dragActive u;
         core := Photo.on_response r (core u) |}
  | ReadFailed => read_failed u
  end.

Definition run (api_key : bool) (actions : list Action) (u : UI) : UI :=
  fold_left (fun u a => step api_key a u) actions u.

(** What every reachable state of the component satisfies: the chosen
    file is an image, and a request is under way only for a chosen file. *)
Definition well_formed (u : UI) : Prop :=
  (forall f, file u = Some f -> is_image f = true)
  /\ (Photo.loading (core u) = true -> file u <> None).

End PhotoUI.

(** ** The fields of a timestamp after the year *)

Module Stamp.
Import JSDate ISO.

(** [MMDDTHHMMSSZ] of a time value in UTC. *)
Definition after_year (t : Z) : string :=
  pad 2 (MonthFromTime t + 1) ++ pad 2 (DateFromTime t) ++ "T"
  ++ pad 2 (HourFromTime t) ++ pad 2 (MinFromTime t)
  ++ pad 2 (SecFromTime t) ++ "Z".

End Stamp.

(** ** The course advisor (App.tsx) *)

Module Advisor.

(** The item a response holds. *)
Record ContentItem : Type := {
  item_type : string;
  item_text : option string
}.

(** [data.content.find((c) => c.type === "text")?.text || ""] *)
Definition text_of (content : list ContentItem) : string :=
  match find (fun c => String.eqb (item_type c) "text") content with
  | Some c =>
      match item_text c with
      | Some (String a t) => String a t
      | _ => EmptyString
      end
  | None => EmptyString
  end.

Definition cleanText (text : string) : string :=
  Text.trim (Text.replace_all Text.fence_json_nl O text).

(** A JavaScript number as far as comparisons go: not a number, an
    infinity, or a finite value, which is a rational. *)
Inductive JsNumber : Type :=
| NaN
| NegInfinity
| Finite (q : Q)
| Infinity.

(** [x <= k] and [x >= k] for an integer constant [k]. *)
Definition le_const (x : JsNumber) (k : Z) : bool :=
  match x with
  | NaN => false
  | NegInfinity => true
  | Finite q => Qle_bool q (inject_Z k)
  | Infinity => false
  end.

Definition ge_const (x : JsNumber) (k : Z) : bool :=
  match x with
  | NaN => false
  | NegInfinity => false
  | Finite q => Qle_bool (inject_Z k) q
  | Infinity => true
  end.

Definition getDifficultyColor (score : JsNumber) : string :=
  if le_const score 4 then "text-green-600 bg-green-50"
  else if le_const score 7 then "text-yellow-600 bg-yellow-50"
  else "text-red-600 bg-red-50".

Definition getRelevanceColor (score : JsNumber) : string :=
  if ge_const score 8 then "text-purple-600 bg-purple-50"
  else if ge_const score 5 then "text-blue-600 bg-blue-50"
  else "text-gray-600 bg-gray-50".

(** The order of the numbers that are numbers. *)
Definition num_le (x y : JsNumber) : Prop :=
  match x, y with
  | NaN, _ | _, NaN => False
  | NegInfinity, _ => True
  | _, Infinity => True
  | Finite p, Finite q => Qle p q
  | _, _ => False
  end.

End Advisor.

(** * Facts *)

Module StrFacts.
Import Str.

Lemma app_nil_r (s : string) : s ++ "" = s.
Proof. induction s as [|a s IH]; simpl; [reflexivity | now rewrite IH]. Qed.

Lemma app_assoc (a b c : string) : (a ++ b) ++ c = a ++ (b ++ c).
Proof. induction a as [|x a IH]; simpl; [reflexivity | now rewrite IH]. Qed.

Lemma length_app (a b : string) :
  String.length (a ++ b) = (String.length a + String.length b)%nat.
Proof. induction a as [|x a IH]; simpl; [reflexivity | now rewrite IH]. Qed.

Lemma app_inv_head (a b c : string) : a ++ b = a ++ c -> b = c.
Proof.
  induction a as [|x a IH]; simpl; intros E; [exact E|].
  injection E as E. now apply IH.
Qed.

Lemma to_list_app (a b : string) :
  list_ascii_of_string (a ++ b)
  = (list_ascii_of_string a ++ list_ascii_of_string b)%list.
Proof. induction a as [|x a IH]; simpl; [reflexivity | now rewrite IH]. Qed.

Lemma to_list_inj (a b : string) :
  list_ascii_of_string a = list_ascii_of_string b -> a = b.
Proof.
  intros E. rewrite <- (string_of_list_ascii_of_string a),
    <- (string_of_list_ascii_of_string b). now rewrite E.
Qed.

Lemma app_inv_tail (a b c : string) : a ++ c = b ++ c -> a = b.
Proof.
  intros E. apply to_list_inj.
  apply (f_equal list_ascii_of_string) in E.
  rewrite !to_list_app in E. now apply List.app_inv_tail in E.
Qed.

Lemma has_char_app (c : ascii) (a b : string) :
  has_char c (a ++ b) = has_char c a || has_char c b.
Proof.
  induction a as [|x a IH]; simpl; [reflexivity|].
  now rewrite IH, orb_assoc.
Qed.

Lemma has_char_In (c : ascii) (s : string) :
  has_char c s = true <-> In c (list_ascii_of_string s).
Proof.
  induction s as [|x s IH]; simpl.
  - split; [discriminate | tauto].
  - rewrite orb_true_iff, IH, Ascii.eqb_eq. tauto.
Qed.

Lemma all_chars_app (p : ascii -> bool) (a b : string) :
  all_chars p (a ++ b) = all_chars p a && all_chars p b.
Proof.
  induction a as [|x a IH]; simpl; [reflexivity|].
  now rewrite IH, andb_assoc.
Qed.

Lemma all_chars_has_char (p : ascii -> bool) (c : ascii) (s : string) :
  all_chars p s = true -> p c = false -> has_char c s = false.
Proof.
  intros Hs Hc. induction s as [|x s IH]; simpl in *; [reflexivity|].
  apply andb_true_iff in Hs as [Hx Hs].
  rewrite (IH Hs), orb_false_r.
  apply Ascii.eqb_neq. intros ->. congruence.
Qed.

Lemma remove_chars_app (cs : list ascii) (a b : string) :
  remove_chars cs (a ++ b) = remove_chars cs a ++ remove_chars cs b.
Proof.
  induction a as [|x a IH]; simpl; [reflexivity|].
  destruct (existsb (Ascii.eqb x) cs); simpl; now rewrite IH.
Qed.

Lemma remove_chars_id (cs : list ascii) (s : string) :
  (forall c, In c cs -> has_char c s = false) -> remove_chars cs s = s.
Proof.
  induction s as [|x s IH]; simpl; intros Hs; [reflexivity|].
  destruct (existsb (Ascii.eqb x) cs) eqn:E.
  - apply existsb_exists in E as (c & Hc & Hxc).
    apply Ascii.eqb_eq in Hxc. subst c.
    specialize (Hs x Hc). now rewrite Ascii.eqb_refl in Hs.
  - f_equal. apply IH. intros c Hc.
    specialize (Hs c Hc). now apply orb_false_iff in Hs.
Qed.

Lemma has_char_remove_chars (c : ascii) (cs : list ascii) (s : string) :
  has_char c s = false -> has_char c (remove_chars cs s) = false.
Proof.
  induction s as [|x s IH]; simpl; intros Hs; [reflexivity|].
  apply orb_false_iff in Hs as [Hx Hs].
  destruct (existsb (Ascii.eqb x) cs); simpl; [auto|].
  now rewrite Hx, IH.
Qed.

Lemma split_not_nil (c : ascii) (s : string) : split c s <> [].
Proof.
  destruct s as [|a s]; simpl; [discriminate|].
  destruct (Ascii.eqb a c); [discriminate|].
  destruct (split c s); discriminate.
Qed.

Lemma split_none (c : ascii) (s : string) :
  has_char c s = false -> split c s = [s].
Proof.
  induction s as [|a s IH]; simpl; intros Hs; [reflexivity|].
  apply orb_false_iff in Hs as [Ha Hs].
  now rewrite Ha, (IH Hs).
Qed.

Lemma split_app (c : ascii) (a b : string) :
  has_char c a = false -> split c (a ++ String c b) = a :: split c b.
Proof.
  induction a as [|x a IH]; simpl; intros Ha.
  - now rewrite Ascii.eqb_refl.
  - apply orb_false_iff in Ha as [Hx Ha].
    now rewrite Hx, (IH Ha).
Qed.

Lemma has_char_hd_split (c d : ascii) (s : string) :
  has_char c s = false -> has_char c (hd EmptyString (split d s)) = false.
Proof.
  induction s as [|a s IH]; simpl; intros Hs; [reflexivity|].
  apply orb_false_iff in Hs as [Ha Hs].
  destruct (Ascii.eqb a d); [reflexivity|].
  specialize (IH Hs).
  destruct (split d s) as [|h t]; simpl in *; now rewrite Ha.
Qed.

(** Splitting at line feeds recovers the lines that were joined, when no
    line holds a line feed. *)
Lemma split_concat (c : ascii) (ls : list string) :
  ls <> [] ->
  Forall (fun l => has_char c l = false) ls ->
  split c (String.concat (String c EmptyString) ls) = ls.
Proof.
  induction ls as [|l ls IH]; intros Hne Hall; [congruence|].
  inversion Hall as [|? ? Hl Hls]; subst.
  destruct ls as [|l' ls]; simpl.
  - now apply split_none.
  - change (String c (l' ++ ?r)) with (String c EmptyString ++ (l' ++ r)).
    simpl. rewrite split_app by assumption.
    f_equal. apply IH; [discriminate | assumption].
Qed.

Lemma substring_app_tail (a t : string) :
  substring (String.length a) (String.length t) (a ++ t) = t.
Proof.
  induction a as [|x a IH]; simpl; [|exact IH].
  induction t as [|y t IHt]; simpl; [reflexivity | now rewrite IHt].
Qed.

Lemma ends_with_app (a t : string) : ends_with t (a ++ t) = true.
Proof.
  unfold ends_with. rewrite length_app.
  replace (String.length a + String.length t - String.length t)%nat
    with (String.length a) by lia.
  rewrite substring_app_tail, String.eqb_refl, andb_true_r.
  apply Nat.leb_le. lia.
Qed.

Lemma prefix_app (p s : string) : String.prefix p (p ++ s) = true.
Proof.
  induction p as [|a p IH]; simpl; [now destruct s|].
  destruct (ascii_dec a a); [exact IH | congruence].
Qed.

End StrFacts.

Module JSDateFacts.
Import JSDate.

Ltac zdiv := Z.div_mod_to_equations; lia.

(** [YearFromDay d] is the year the day [d] falls in. *)
Lemma YearFromDay_spec (d : Z) :
  DayFromYear (YearFromDay d) <= d < DayFromYear (YearFromDay d + 1).
Proof.
  unfold YearFromDay.
  set (y := 1970 + d * 400 / 146097).
  assert (Hlo : DayFromYear (y - 1) <= d) by (unfold DayFromYear, y; zdiv).
  assert (Hhi : d < DayFromYear (y + 2)) by (unfold DayFromYear, y; zdiv).
  destruct (Z.leb_spec (DayFromYear (y + 1)) d).
  - replace (y + 1 + 1) with (y + 2) by lia. lia.
  - destruct (Z.leb_spec (DayFromYear y) d); [lia|].
    replace (y - 1 + 1) with y by lia. lia.
Qed.

Lemma InLeapYear_of_cases (y : Z) :
  (InLeapYear_of y = 0 /\ ~ (y mod 4 = 0 /\ (y mod 100 <> 0 \/ y mod 400 = 0)))
  \/ (InLeapYear_of y = 1 /\ y mod 4 = 0 /\ (y mod 100 <> 0 \/ y mod 400 = 0)).
Proof.
  unfold InLeapYear_of.
  destruct (Z.eqb_spec (y mod 4) 0), (Z.eqb_spec (y mod 100) 0),
    (Z.eqb_spec (y mod 400) 0); simpl; lia.
Qed.

(** A year has 365 days, or 366 when it is a leap year. *)
Lemma DaysInYear (y : Z) :
  DayFromYear (y + 1) = DayFromYear y + 365 + InLeapYear_of y.
Proof.
  destruct (InLeapYear_of_cases y) as [[-> Hy] | [-> Hy]];
    unfold DayFromYear; zdiv.
Qed.

Lemma DayWithinYear_range (t : Z) :
  0 <= DayWithinYear t < 365 + InLeapYear t.
Proof.
  unfold DayWithinYear, InLeapYear, YearFromTime.
  pose proof (YearFromDay_spec (Day t)) as Hy.
  rewrite DaysInYear in Hy. lia.
Qed.

Lemma InLeapYear_range (t : Z) : InLeapYear t = 0 \/ InLeapYear t = 1.
Proof.
  unfold InLeapYear.
  destruct (InLeapYear_of_cases (YearFromTime t)) as [[-> _] | [-> _]]; auto.
Qed.

Ltac month_cases t :=
  pose proof (DayWithinYear_range t);
  pose proof (InLeapYear_range t);
  unfold DateFromTime, MonthFromTime;
  repeat match goal with
         | |- context [?a <? ?b] => destruct (Z.ltb_spec a b)
         end;
  cbn [DaysBeforeMonth DaysInMonth].

Lemma MonthFromTime_range (t : Z) : 0 <= MonthFromTime t <= 11.
Proof. month_cases t; lia. Qed.

Lemma DateFromTime_range (t : Z) :
  1 <= DateFromTime t <= DaysInMonth (MonthFromTime t) (InLeapYear t).
Proof. month_cases t; lia. Qed.

Lemma DateFromTime_le_31 (t : Z) : 1 <= DateFromTime t <= 31.
Proof. month_cases t; lia. Qed.

(** The date fields of a time value denote its day. *)
Lemma MakeDay_fields (t : Z) :
  MakeDay (YearFromTime t) (MonthFromTime t) (DateFromTime t) = Day t.
Proof.
  unfold MakeDay. fold (InLeapYear t).
  unfold DateFromTime, DayWithinYear. lia.
Qed.

Lemma HourFromTime_range (t : Z) : 0 <= HourFromTime t <= 23.
Proof. unfold HourFromTime. zdiv. Qed.

Lemma MinFromTime_range (t : Z) : 0 <= MinFromTime t <= 59.
Proof. unfold MinFromTime. zdiv. Qed.

Lemma SecFromTime_range (t : Z) : 0 <= SecFromTime t <= 59.
Proof. unfold SecFromTime. zdiv. Qed.

Lemma msFromTime_range (t : Z) : 0 <= msFromTime t <= 999.
Proof. unfold msFromTime, msPerSecond. zdiv. Qed.

(** The fields of a time value denote it. *)
Lemma MakeDate_fields (t : Z) :
  MakeDate (MakeDay (YearFromTime t) (MonthFromTime t) (DateFromTime t))
    (MakeTime (HourFromTime t) (MinFromTime t) (SecFromTime t) (msFromTime t))
  = t.
Proof.
  rewrite MakeDay_fields.
  unfold MakeDate, MakeTime, Day, HourFromTime, MinFromTime, SecFromTime,
    msFromTime, msPerDay, msPerHour, msPerMinute, msPerSecond.
  zdiv.
Qed.

(** The years of the time values in range take at most six digits. *)
Lemma YearFromTime_range (t : Z) :
  - maxTime <= t <= maxTime -> -271821 <= YearFromTime t <= 275760.
Proof.
  intros Ht.
  pose proof (YearFromDay_spec (Day t)) as Hy.
  fold (YearFromTime t) in Hy.
  unfold Day, msPerDay, maxTime in *.
  assert (Hd : -100000000 <= t / 86400000 <= 100000000) by zdiv.
  unfold DayFromYear in Hy. zdiv.
Qed.

Lemma TimeClip_in_range (t : Z) :
  - maxTime <= t <= maxTime -> TimeClip t = Some t.
Proof.
  intros Ht. unfold TimeClip.
  destruct (Z.leb_spec (- maxTime) t), (Z.leb_spec t maxTime);
    first [reflexivity | lia].
Qed.

Lemma TimeClip_Some (t u : Z) :
  TimeClip t = Some u -> u = t /\ - maxTime <= t <= maxTime.
Proof.
  unfold TimeClip.
  destruct (Z.leb_spec (- maxTime) t), (Z.leb_spec t maxTime);
    cbn [andb]; intros E; inversion E; subst; lia.
Qed.

(** A time value whose year takes four digits is in range. *)
Lemma year4_in_range (t : Z) :
  0 <= YearFromTime t <= 9999 -> - maxTime <= t <= maxTime.
Proof.
  intros Hy4.
  pose proof (YearFromDay_spec (Day t)) as Hy.
  fold (YearFromTime t) in Hy.
  unfold Day, msPerDay, maxTime, DayFromYear in *. zdiv.
Qed.

End JSDateFacts.

Module ISOFacts.
Import JSDate ISO JSDateFacts.

Lemma digit_char_spec (m : Z) :
  0 <= m <= 9 ->
  Str.is_digit (digit_char m) = true /\ digit_val (digit_char m) = m.
Proof.
  intros Hm.
  assert (Hc : m = 0 \/ m = 1 \/ m = 2 \/ m = 3 \/ m = 4 \/ m = 5 \/ m = 6
               \/ m = 7 \/ m = 8 \/ m = 9) by lia.
  repeat (destruct Hc as [-> | Hc]; [split; reflexivity|]).
  subst m. split; reflexivity.
Qed.

Lemma pad_length (k : nat) (n : Z) : String.length (pad k n) = k.
Proof.
  revert n. induction k as [|k IH]; intros n; simpl; [reflexivity|].
  rewrite StrFacts.length_app, IH. cbn [String.length]. lia.
Qed.

Lemma pad_digits (k : nat) (n : Z) : Str.all_chars Str.is_digit (pad k n) = true.
Proof.
  revert n. induction k as [|k IH]; intros n; simpl; [reflexivity|].
  rewrite StrFacts.all_chars_app, IH. cbn [Str.all_chars andb].
  assert (Hm : 0 <= n mod 10 <= 9) by zdiv.
  now rewrite (proj1 (digit_char_spec _ Hm)).
Qed.

Lemma pad_has_char (c : ascii) (k : nat) (n : Z) :
  Str.is_digit c = false -> Str.has_char c (pad k n) = false.
Proof. apply StrFacts.all_chars_has_char, pad_digits. Qed.

(** Reading back the digits [pad] wrote. *)
Lemma read_digits_pad_gen (k j : nat) (acc n : Z) (rest : string) :
  read_digits (k + j) acc (pad k n ++ rest)
  = read_digits j (acc * 10 ^ Z.of_nat k + n mod 10 ^ Z.of_nat k) rest.
Proof.
  revert j acc n rest. induction k as [|k IH]; intros j acc n rest.
  - cbn [pad Nat.add String.append].
    change (Z.of_nat 0) with 0. rewrite Z.pow_0_r, Z.mod_1_r. f_equal. lia.
  - cbn [pad]. rewrite StrFacts.app_assoc. cbn [String.append].
    replace (S k + j)%nat with (k + S j)%nat by lia.
    rewrite IH. cbn [read_digits].
    assert (Hm : 0 <= n mod 10 <= 9) by zdiv.
    destruct (digit_char_spec _ Hm) as [-> ->].
    f_equal.
    rewrite Nat2Z.inj_succ, Z.pow_succ_r by lia.
    rewrite (Z.rem_mul_r n 10 (10 ^ Z.of_nat k)) by lia.
    lia.
Qed.

Lemma read_digits_pad (k : nat) (n : Z) (rest : string) :
  0 <= n < 10 ^ Z.of_nat k ->
  read_digits k 0 (pad k n ++ rest) = Some (n, rest).
Proof.
  intros Hn.
  replace k with (k + 0)%nat at 1 by lia.
  rewrite read_digits_pad_gen. cbn [read_digits].
  rewrite Z.mod_small by lia. f_equal.
Qed.

Lemma pad_first (k : nat) (n : Z) :
  exists a s, pad (S k) n = String a s /\ Str.is_digit a = true.
Proof.
  pose proof (pad_digits (S k) n) as Hd.
  pose proof (pad_length (S k) n) as Hl.
  destruct (pad (S k) n) as [|a s]; [discriminate|].
  exists a, s. split; [reflexivity|].
  cbn [Str.all_chars] in Hd. now apply andb_true_iff in Hd.
Qed.

Lemma read_year_spec (y : Z) (rest : string) :
  -999999 <= y <= 999999 ->
  read_year (year_string y ++ rest) = Some (y, rest).
Proof.
  intros Hy. unfold year_string.
  destruct (Z.leb_spec 0 y) as [H0|H0];
    [destruct (Z.leb_spec y 9999) as [H9|H9]|]; cbn [andb].
  - destruct (pad_first 3 y) as (a & s & E & Ha).
    pose proof (read_digits_pad 4 y rest) as R.
    rewrite E in *. cbn [String.append read_year].
    destruct (Ascii.eqb_spec a "+") as [->|_]; [discriminate|].
    destruct (Ascii.eqb_spec a "-") as [->|_]; [discriminate|].
    apply R. change (10 ^ Z.of_nat 4) with 10000. lia.
  - destruct (Z.ltb_spec y 0); [lia|].
    cbn [String.append read_year Ascii.eqb Bool.eqb].
    rewrite read_digits_pad by (change (10 ^ Z.of_nat 6) with 1000000; lia).
    f_equal. f_equal. lia.
  - destruct (Z.ltb_spec y 0); [|lia].
    cbn [String.append read_year Ascii.eqb Bool.eqb].
    rewrite read_digits_pad by (change (10 ^ Z.of_nat 6) with 1000000; lia).
    destruct (Z.eqb_spec (Z.abs y) 0); [lia|].
    f_equal. f_equal. lia.
Qed.

(** [Date.parse] reads an ISO string back to its time value. *)
Lemma iso_parse_ISOString (t : Z) :
  - maxTime <= t <= maxTime -> iso_parse (ISOString t) = Some (t, true).
Proof.
  intros Ht.
  pose proof (YearFromTime_range t Ht) as Hy.
  pose proof (MonthFromTime_range t) as Hmo.
  pose proof (DateFromTime_range t) as Hd.
  pose proof (DateFromTime_le_31 t) as Hd'.
  pose proof (HourFromTime_range t) as Hh.
  pose proof (MinFromTime_range t) as Hmi.
  pose proof (SecFromTime_range t) as Hs.
  pose proof (msFromTime_range t) as Hms.
  unfold iso_parse, ISOString.
  rewrite read_year_spec by lia.
  cbn [String.append read_char Ascii.eqb Bool.eqb].
  rewrite read_digits_pad by (change (10 ^ Z.of_nat 2) with 100; lia).
  cbn [String.append read_char Ascii.eqb Bool.eqb].
  rewrite read_digits_pad by (change (10 ^ Z.of_nat 2) with 100; lia).
  cbn [String.append read_char Ascii.eqb Bool.eqb].
  rewrite read_digits_pad by (change (10 ^ Z.of_nat 2) with 100; lia).
  cbn [String.append read_char Ascii.eqb Bool.eqb].
  rewrite read_digits_pad by (change (10 ^ Z.of_nat 2) with 100; lia).
  cbn [String.append read_char Ascii.eqb Bool.eqb].
  rewrite read_digits_pad by (change (10 ^ Z.of_nat 2) with 100; lia).
  cbn [String.append read_tail Ascii.eqb Bool.eqb].
  rewrite read_digits_pad by (change (10 ^ Z.of_nat 3) with 1000; lia).
  cbn [Ascii.eqb Bool.eqb].
  replace (MonthFromTime t + 1 - 1) with (MonthFromTime t) by lia.
  fold (InLeapYear t).
  repeat match goal with
         | |- context [?a <=? ?b] =>
             destruct (Z.leb_spec a b); [|lia]
         end.
  cbn [andb]. now rewrite MakeDate_fields.
Qed.

Lemma Date_parse_ISOString (H : Host) (t : Z) :
  - maxTime <= t <= maxTime -> new_Date H (ISOString t) = Some t.
Proof.
  intros Ht. unfold new_Date, Date_parse.
  rewrite iso_parse_ISOString by assumption.
  now apply TimeClip_in_range.
Qed.

End ISOFacts.

Module FormatFacts.
Import JSDate ISO Converter Layout JSDateFacts ISOFacts.

Lemma formatDateToICS_Some (H : Host) (s : string) (t : Z) :
  new_Date H s = Some t ->
  formatDateToICS H s
  = inl (hd EmptyString
           (Str.split "." (Str.remove_chars ["-"; ":"]%char (ISOString t)))
         ++ "Z").
Proof. intros E. unfold formatDateToICS. now rewrite E. Qed.

Lemma formatDateToICS_None (H : Host) (s : string) :
  new_Date H s = None ->
  formatDateToICS H s = inr (RangeError "Invalid time value").
Proof. intros E. unfold formatDateToICS. now rewrite E. Qed.

Lemma formatDateToICS_inl (H : Host) (s v : string) :
  formatDateToICS H s = inl v -> exists t, new_Date H s = Some t.
Proof.
  unfold formatDateToICS. destruct (new_Date H s) as [t|]; [eauto|discriminate].
Qed.

Lemma literal_has_char (c a : ascii) :
  c <> a -> Str.has_char c (String a EmptyString) = false.
Proof.
  intros Hc. cbn [Str.has_char]. rewrite orb_false_r.
  apply Ascii.eqb_neq. congruence.
Qed.

(** An ISO string holds digits and the punctuation of the format only. *)
Lemma ISOString_has_char (c : ascii) (t : Z) :
  Str.is_digit c = false ->
  ~ In c ["-"; "+"; "T"; ":"; "."; "Z"]%char ->
  Str.has_char c (ISOString t) = false.
Proof.
  intros Hd Hc. cbn [In] in Hc.
  unfold ISOString, year_string.
  repeat rewrite StrFacts.has_char_app.
  repeat rewrite (pad_has_char c) by assumption.
  repeat rewrite literal_has_char by (intros ->; tauto).
  destruct (_ && _); [now rewrite pad_has_char|].
  rewrite StrFacts.has_char_app, pad_has_char by assumption.
  destruct (_ <? _); rewrite literal_has_char; auto; intros ->; tauto.
Qed.

Lemma formatted_has_char (c : ascii) (H : Host) (s : string) :
  Str.is_digit c = false ->
  ~ In c ["-"; "+"; "T"; ":"; "."; "Z"]%char ->
  Str.has_char c (value_of (formatDateToICS H s)) = false.
Proof.
  intros Hd Hc. unfold formatDateToICS.
  destruct (new_Date H s) as [t|]; cbn [toISOString value_of]; [|reflexivity].
  rewrite StrFacts.has_char_app, StrFacts.has_char_hd_split.
  - apply literal_has_char. cbn [In] in Hc. intros ->; tauto.
  - apply StrFacts.has_char_remove_chars, ISOString_has_char; assumption.
Qed.

Lemma remove_chars_pad (k : nat) (n : Z) :
  Str.remove_chars ["-"; ":"]%char (pad k n) = pad k n.
Proof.
  apply StrFacts.remove_chars_id. intros c Hc.
  apply pad_has_char. cbn [In] in Hc.
  destruct Hc as [<-|[<-|[]]]; reflexivity.
Qed.

(** With a four-digit year the value is [YYYYMMDDTHHMMSSZ]. *)
Lemma format_year4 (t : Z) :
  year4 t ->
  hd EmptyString (Str.split "." (Str.remove_chars ["-"; ":"]%char (ISOString t)))
  ++ "Z" = basic_utc t.
Proof.
  intros [H0 H9]. unfold ISOString, year_string, basic_utc.
  destruct (Z.leb_spec 0 (YearFromTime t)); [|lia].
  destruct (Z.leb_spec (YearFromTime t) 9999); [|lia].
  cbn [andb].
  repeat rewrite StrFacts.remove_chars_app.
  repeat rewrite remove_chars_pad.
  cbn [Str.remove_chars existsb Ascii.eqb Bool.eqb orb String.append].
  set (a := pad 4 (YearFromTime t) ++ pad 2 (MonthFromTime t + 1)
            ++ pad 2 (DateFromTime t) ++ "T" ++ pad 2 (HourFromTime t)
            ++ pad 2 (MinFromTime t) ++ pad 2 (SecFromTime t)).
  match goal with
  | |- hd _ (Str.split _ ?x) ++ _ = _ =>
      replace x with (a ++ String "." (pad 3 (msFromTime t) ++ "Z"))
  end.
  - rewrite StrFacts.split_app; [cbn [hd]; unfold a|].
    + repeat rewrite StrFacts.app_assoc. cbn [String.append].
      repeat rewrite StrFacts.app_assoc. reflexivity.
    + unfold a.
      repeat (rewrite StrFacts.has_char_app || cbn [Str.has_char]).
      repeat rewrite (pad_has_char ".") by reflexivity. reflexivity.
  - unfold a. repeat rewrite StrFacts.app_assoc. cbn [String.append].
    repeat rewrite StrFacts.app_assoc. reflexivity.
Qed.

Lemma formatDateToICS_year4 (H : Host) (s : string) (t : Z) :
  new_Date H s = Some t -> year4 t -> formatDateToICS H s = inl (basic_utc t).
Proof.
  intros E Hy. rewrite (formatDateToICS_Some H s t E).
  now rewrite format_year4.
Qed.

Lemma digits_then_app (k : nat) (rest : string -> bool) (a r : string) :
  Str.all_chars Str.is_digit a = true -> String.length a = k ->
  digits_then k rest (a ++ r) = rest r.
Proof.
  revert k. induction a as [|x a IH]; intros k Ha Hl; subst k.
  - reflexivity.
  - cbn [Str.all_chars] in Ha. apply andb_true_iff in Ha as [Hx Ha].
    cbn [String.length digits_then String.append]. rewrite Hx.
    now apply IH.
Qed.

Lemma basic_utc_matches (t : Z) : is_basic_utc (basic_utc t) = true.
Proof.
  assert (E : basic_utc t
              = (pad 4 (YearFromTime t) ++ pad 2 (MonthFromTime t + 1)
                 ++ pad 2 (DateFromTime t))
                ++ String "T" ((pad 2 (HourFromTime t) ++ pad 2 (MinFromTime t)
                                ++ pad 2 (SecFromTime t)) ++ "Z")).
  { unfold basic_utc. repeat rewrite StrFacts.app_assoc. reflexivity. }
  rewrite E. unfold is_basic_utc.
  rewrite digits_then_app.
  - cbn [Ascii.eqb Bool.eqb andb].
    rewrite digits_then_app; [reflexivity| |].
    + repeat rewrite StrFacts.all_chars_app. now rewrite !pad_digits.
    + repeat rewrite StrFacts.length_app. now rewrite !pad_length.
  - repeat rewrite StrFacts.all_chars_app. now rewrite !pad_digits.
  - repeat rewrite StrFacts.length_app. now rewrite !pad_length.
Qed.

End FormatFacts.

Module RunFacts.
Import JSDate ISO Converter Layout JSDateFacts ISOFacts FormatFacts.

Lemma parses_value (H : Host) (s : string) :
  parses H s = true ->
  formatDateToICS H s = inl (value_of (formatDateToICS H s)).
Proof.
  unfold parses, formatDateToICS.
  destruct (new_Date H s); [reflexivity | discriminate].
Qed.

Lemma parses_false (H : Host) (s : string) :
  parses H s = false ->
  formatDateToICS H s = inr (RangeError "Invalid time value").
Proof.
  unfold parses. intros E. apply formatDateToICS_None.
  destruct (new_Date H s); [discriminate | reflexivity].
Qed.

Lemma event_body_run (H : Host) (clock : nat -> Z) (e : CalendarEvent)
  (i : nat) (st : Run) :
  parses H (ISOString (clock (S (reads st)))) && parseable H e = true ->
  event_body H clock e i st
  = (inl tt,
     {| reads := S (S (reads st));
        icsContent :=
          icsContent st
          ++ terminated
               (event_lines H (clock (reads st)) (clock (S (reads st))) i e) |}).
Proof.
  unfold parseable. intros Hok.
  apply andb_true_iff in Hok as [H1 Hok].
  apply andb_true_iff in Hok as [H2 H3].
  apply parses_value in H1, H2, H3.
  unfold event_body, bind, append_ics, Date_now, new_Date_now, read_clock,
    call, ret, bind.
  cbn [reads icsContent toISOString].
  rewrite H1, H2, H3.
  unfold terminated, event_lines, optional_line, uid_line.
  destruct (truthy (location e)), (truthy (description e));
    cbn [reads icsContent map List.app String.concat];
    repeat rewrite StrFacts.app_assoc; cbn [String.append];
    repeat rewrite StrFacts.app_assoc; reflexivity.
Qed.

Lemma event_body_throws (H : Host) (clock : nat -> Z) (e : CalendarEvent)
  (i : nat) (st : Run) :
  parses H (ISOString (clock (S (reads st)))) && parseable H e = false ->
  fst (event_body H clock e i st) = inr (RangeError "Invalid time value").
Proof.
  unfold parseable. intros Hok.
  unfold event_body, bind, append_ics, Date_now, new_Date_now, read_clock,
    call, ret, bind.
  cbn [reads icsContent toISOString].
  destruct (parses H (ISOString (clock (S (reads st))))) eqn:H1;
    [apply parses_value in H1 | apply parses_false in H1];
    rewrite H1; [|reflexivity].
  destruct (parses H (start e)) eqn:H2;
    [apply parses_value in H2 | apply parses_false in H2];
    rewrite H2; [|reflexivity].
  destruct (parses H (end_ e)) eqn:H3;
    [discriminate | apply parses_false in H3].
  rewrite H3. reflexivity.
Qed.

Lemma terminated_app (a b : list string) :
  terminated (a ++ b) = terminated a ++ terminated b.
Proof.
  unfold terminated. induction a as [|x a IH]; [reflexivity|].
  cbn [List.app map]. 
  assert (C : forall y ys, String.concat "" (y :: ys) = y ++ String.concat "" ys).
  { intros y [|z ys]; cbn [String.concat];
      [now rewrite StrFacts.app_nil_r | reflexivity]. }
  now rewrite !C, IH, !StrFacts.app_assoc.
Qed.

(** Joining with line feeds is terminating every line but the last. *)
Lemma join_lines_snoc (ls : list string) (z : string) :
  join_lines (ls ++ [z]) = terminated ls ++ z.
Proof.
  unfold join_lines, terminated. induction ls as [|x ls IH]; [reflexivity|].
  cbn [List.app map].
  destruct ls as [|y ls].
  - cbn [List.app map String.concat]. now rewrite StrFacts.app_assoc.
  - change (String.concat nl (x :: (y :: ls) ++ [z]))
      with (x ++ nl ++ String.concat nl ((y :: ls) ++ [z])).
    rewrite IH.
    change (String.concat "" ((x ++ nl) :: map (fun l => l ++ nl) (y :: ls)))
      with ((x ++ nl) ++ "" ++ String.concat "" (map (fun l => l ++ nl) (y :: ls))).
    cbn [String.append]. now rewrite !StrFacts.app_assoc.
Qed.

(** The loop over the events from position [i], entered after [2 i] reads
    of the clock. *)
Lemma forEach_from_run (H : Host) (clock : nat -> Z)
  (es : list CalendarEvent) (i : nat) (st : Run) :
  reads st = (2 * i)%nat ->
  run_ok H clock i es = true ->
  forEach_from (event_body H clock) i es st
  = (inl tt,
     {| reads := (2 * (i + List.length es))%nat;
        icsContent := icsContent st ++ terminated (events_lines H clock i es) |}).
Proof.
  revert i st. induction es as [|e es IH]; intros i st Hr Hok.
  - cbn [forEach_from ret events_lines List.length].
    unfold terminated. cbn [map String.concat].
    rewrite StrFacts.app_nil_r, Nat.add_0_r, <- Hr. now destruct st.
  - cbn [run_ok] in Hok. apply andb_true_iff in Hok as [Hok Hes].
    cbn [forEach_from]. unfold bind at 1.
    replace (2 * i + 1)%nat with (S (reads st)) in Hok by lia.
    rewrite (event_body_run H clock e i st Hok).
    rewrite IH; [|cbn [reads]; lia|assumption].
    cbn [reads icsContent events_lines List.length].
    rewrite terminated_app, StrFacts.app_assoc.
    replace (2 * i + 1)%nat with (S (reads st)) by lia.
    rewrite <- Hr.
    f_equal. f_equal. lia.
Qed.

Lemma forEach_from_throws (H : Host) (clock : nat -> Z)
  (es : list CalendarEvent) (i : nat) (st : Run) :
  reads st = (2 * i)%nat ->
  run_ok H clock i es = false ->
  fst (forEach_from (event_body H clock) i es st)
  = inr (RangeError "Invalid time value").
Proof.
  revert i st. induction es as [|e es IH]; intros i st Hr Hok.
  - discriminate.
  - cbn [run_ok] in Hok. cbn [forEach_from]. unfold bind at 1.
    replace (2 * i + 1)%nat with (S (reads st)) in Hok by lia.
    destruct (parses H (ISOString (clock (S (reads st)))) && parseable H e)
      eqn:He.
    + rewrite (event_body_run H clock e i st He).
      apply IH; [cbn [reads]; lia | exact Hok].
    + pose proof (event_body_throws H clock e i st He) as Ht.
      destruct (event_body H clock e i st) as [[u|x] st'];
        cbn [fst] in Ht |- *; [discriminate | exact Ht].
Qed.

(** What [generateICS] returns: the lines of the calendar joined by line
    feeds, or the [RangeError] of [toISOString] on an invalid date. *)
Lemma generateICS_spec (H : Host) (clock : nat -> Z)
  (events : list CalendarEvent) :
  generateICS H clock events
  = if run_ok H clock O events
    then inl (join_lines (calendar_lines H clock events))
    else inr (RangeError "Invalid time value").
Proof.
  unfold generateICS, generateICS_run, forEach.
  set (st := {| reads := O; icsContent := header |}).
  destruct (run_ok H clock O events) eqn:Hok.
  - unfold bind at 1.
    rewrite (forEach_from_run H clock events O st eq_refl Hok).
    unfold bind, append_ics, get_ics. cbn [fst reads icsContent st].
    f_equal. unfold calendar_lines.
    rewrite List.app_assoc, join_lines_snoc, terminated_app.
    now rewrite StrFacts.app_assoc.
  - unfold bind at 1.
    pose proof (forEach_from_throws H clock events O st eq_refl Hok) as Ht.
    destruct (forEach_from (event_body H clock) O events st) as [[u|x] st'];
      cbn [fst] in Ht |- *; [discriminate | congruence].
Qed.

Lemma generateICS_layout (H : Host) (clock : nat -> Z)
  (events : list CalendarEvent) (s : string) :
  generateICS H clock events = inl s ->
  s = join_lines (calendar_lines H clock events).
Proof.
  rewrite generateICS_spec.
  destruct (run_ok H clock O events); congruence.
Qed.

End RunFacts.

Module LinesFacts.
Import JSDate ISO Converter Layout JSDateFacts ISOFacts FormatFacts RunFacts.

Lemma string_of_uint_has_char (c : ascii) (d : Decimal.uint) :
  Str.is_digit c = false ->
  Str.has_char c (NilEmpty.string_of_uint d) = false.
Proof.
  intros Hc. induction d; cbn [NilEmpty.string_of_uint Str.has_char];
    try reflexivity; rewrite IHd, orb_false_r;
    apply Ascii.eqb_neq; intros <-; discriminate.
Qed.

Lemma NilZero_uint_has_char (c : ascii) (d : Decimal.uint) :
  Str.is_digit c = false ->
  Str.has_char c (NilZero.string_of_uint d) = false.
Proof.
  intros Hc. unfold NilZero.string_of_uint.
  destruct d; try apply (string_of_uint_has_char c _ Hc).
  cbn [Str.has_char]. rewrite orb_false_r.
  apply Ascii.eqb_neq; intros <-; discriminate.
Qed.

Lemma index_toString_has_char (c : ascii) (i : nat) :
  Str.is_digit c = false -> Str.has_char c (index_toString i) = false.
Proof. apply NilZero_uint_has_char. Qed.

Lemma Number_toString_has_char (c : ascii) (n : Z) :
  Str.is_digit c = false -> c <> "-"%char ->
  Str.has_char c (Number_toString n) = false.
Proof.
  intros Hc Hm. unfold Number_toString, NilZero.string_of_int.
  destruct (Z.to_int n); [now apply NilZero_uint_has_char|].
  cbn [Str.has_char]. rewrite NilZero_uint_has_char by assumption.
  rewrite orb_false_r. apply Ascii.eqb_neq. congruence.
Qed.

Lemma uid_line_has_char (c : ascii) (now : Z) (i : nat) :
  terminator c -> Str.has_char c (uid_line now i) = false.
Proof.
  intros Hc. unfold uid_line.
  rewrite !StrFacts.has_char_app.
  rewrite Number_toString_has_char, index_toString_has_char;
    destruct Hc as [-> | ->]; try reflexivity; discriminate.
Qed.

Lemma value_has_char (c : ascii) (H : Host) (s : string) :
  terminator c -> Str.has_char c (value_of (formatDateToICS H s)) = false.
Proof.
  intros Hc. apply formatted_has_char; destruct Hc as [-> | ->];
    try reflexivity; cbn [In]; intros F;
    repeat (destruct F as [F|F]; [discriminate|]); exact F.
Qed.

Lemma event_lines_has_char (c : ascii) (H : Host) (now1 now2 : Z) (i : nat)
  (e : CalendarEvent) :
  terminator c -> free_of c e = true ->
  Forall (fun l => Str.has_char c l = false) (event_lines H now1 now2 i e).
Proof.
  intros Hc He. unfold free_of in He.
  apply andb_true_iff in He as [He Hd].
  apply andb_true_iff in He as [Ht Hl].
  apply negb_true_iff in Ht, Hl, Hd.
  unfold event_lines, optional_line.
  repeat (apply Forall_app; split);
    repeat match goal with
           | |- Forall _ (if ?b then _ else _) => destruct b
           end;
    repeat constructor;
    first [ apply uid_line_has_char; assumption
          | rewrite ?StrFacts.has_char_app;
            rewrite ?value_has_char by assumption;
            rewrite ?Ht, ?Hl, ?Hd;
            destruct Hc as [-> | ->]; reflexivity ].
Qed.

Lemma events_lines_has_char (c : ascii) (H : Host) (clock : nat -> Z)
  (i : nat) (es : list CalendarEvent) :
  terminator c -> forallb (free_of c) es = true ->
  Forall (fun l => Str.has_char c l = false) (events_lines H clock i es).
Proof.
  intros Hc. revert i. induction es as [|e es IH]; intros i Hes.
  - constructor.
  - cbn [forallb] in Hes. apply andb_true_iff in Hes as [He Hes].
    cbn [events_lines]. apply Forall_app. split.
    + now apply event_lines_has_char.
    + now apply IH.
Qed.

Lemma calendar_lines_has_char (c : ascii) (H : Host) (clock : nat -> Z)
  (es : list CalendarEvent) :
  terminator c -> forallb (free_of c) es = true ->
  Forall (fun l => Str.has_char c l = false) (calendar_lines H clock es).
Proof.
  intros Hc Hes. unfold calendar_lines, header_lines.
  repeat (apply Forall_app; split).
  - repeat constructor; destruct Hc as [-> | ->]; reflexivity.
  - now apply events_lines_has_char.
  - repeat constructor; destruct Hc as [-> | ->]; reflexivity.
Qed.

(** When no text property holds a line feed, the lines of the document
    are the lines that were written. *)
Lemma lines_join_calendar (H : Host) (clock : nat -> Z)
  (es : list CalendarEvent) :
  forallb single_line es = true ->
  Str.lines (join_lines (calendar_lines H clock es)) = calendar_lines H clock es.
Proof.
  intros Hes. unfold Str.lines, join_lines, nl.
  apply StrFacts.split_concat.
  - unfold calendar_lines, header_lines. discriminate.
  - apply calendar_lines_has_char; [left; reflexivity | exact Hes].
Qed.

End LinesFacts.

Module BlockFacts.
Import JSDate ISO Converter Layout JSDateFacts ISOFacts FormatFacts RunFacts
  LinesFacts.

Lemma filter_eqb_absent (l : string) (ls : list string) :
  ~ In l ls -> filter (String.eqb l) ls = [].
Proof.
  induction ls as [|x ls IH]; intros Hn; [reflexivity|].
  cbn [filter]. destruct (String.eqb_spec l x) as [->|_].
  - exfalso. apply Hn. now left.
  - apply IH. intros Hi. apply Hn. now right.
Qed.

Lemma event_lines_block (H : Host) (now1 now2 : Z) (i : nat)
  (e : CalendarEvent) :
  event_block e (event_lines H now1 now2 i e).
Proof.
  unfold event_block, event_lines.
  exists ([uid_line now1 i;
           ("DTSTAMP:" ++ value_of (formatDateToICS H (ISOString now2)))%string;
           ("DTSTART:" ++ value_of (formatDateToICS H (start e)))%string;
           ("DTEND:" ++ value_of (formatDateToICS H (end_ e)))%string;
           ("SUMMARY:" ++ title e)%string]
          ++ optional_line "LOCATION:" (location e)
          ++ optional_line "DESCRIPTION:" (description e))%list.
  split; [|split; [|split]].
  - cbn [List.app]. now rewrite <- !List.app_assoc.
  - cbn [List.app In]. tauto.
  - unfold optional_line, uid_line.
    destruct (truthy (location e)), (truthy (description e));
      cbn [List.app In String.append]; intros F;
      repeat (destruct F as [F|F]; [discriminate|]); exact F.
  - unfold optional_line, uid_line.
    destruct (truthy (location e)), (truthy (description e));
      cbn [List.app In String.append]; intros F;
      repeat (destruct F as [F|F]; [discriminate|]); exact F.
Qed.

(** The lines of the events are their blocks, in the order of the events. *)
Lemma events_lines_blocks (H : Host) (clock : nat -> Z) (i : nat)
  (es : list CalendarEvent) :
  exists blocks,
    Forall2 event_block es blocks /\ events_lines H clock i es = List.concat blocks.
Proof.
  revert i. induction es as [|e es IH]; intros i.
  - exists []. split; [constructor | reflexivity].
  - destruct (IH (S i)) as (bs & Hbs & E).
    exists (event_lines H (clock (2 * i)%nat) (clock (2 * i + 1)%nat) i e :: bs).
    split; [constructor; [apply event_lines_block | exact Hbs]|].
    cbn [events_lines List.concat]. now rewrite E.
Qed.

Lemma count_block (l : string) (e : CalendarEvent) (b : list string) :
  l = "BEGIN:VEVENT" \/ l = "END:VEVENT" ->
  event_block e b -> List.length (filter (String.eqb l) b) = 1%nat.
Proof.
  intros Hl (mid & -> & _ & Hb & He).
  change ("BEGIN:VEVENT" :: mid ++ ["END:VEVENT"])
    with (["BEGIN:VEVENT"] ++ mid ++ ["END:VEVENT"])%list.
  rewrite !filter_app, !List.length_app.
  destruct Hl as [-> | ->]; rewrite (filter_eqb_absent _ mid) by assumption;
    reflexivity.
Qed.

Lemma count_blocks (l : string) (es : list CalendarEvent)
  (bs : list (list string)) :
  l = "BEGIN:VEVENT" \/ l = "END:VEVENT" ->
  Forall2 event_block es bs ->
  List.length (filter (String.eqb l) (List.concat bs)) = List.length es.
Proof.
  intros Hl Hbs. induction Hbs as [|e b es bs Hb Hbs IH]; [reflexivity|].
  cbn [List.concat List.length].
  now rewrite filter_app, List.length_app, IH, (count_block l e b Hl Hb).
Qed.

(** The lines of an event that carry a given optional property. *)
Lemma filter_event_lines (H : Host) (now1 now2 : Z) (i : nat)
  (e : CalendarEvent) :
  filter (is_property "LOCATION:") (event_lines H now1 now2 i e)
  = optional_line "LOCATION:" (location e)
  /\ filter (is_property "DESCRIPTION:") (event_lines H now1 now2 i e)
     = optional_line "DESCRIPTION:" (description e).
Proof.
  unfold event_lines, optional_line, uid_line, is_property.
  destruct (truthy (location e)), (truthy (description e));
    cbn [List.app filter String.append Decoder.strip Ascii.eqb Bool.eqb];
    split; reflexivity.
Qed.

Lemma filter_events_lines (H : Host) (clock : nat -> Z) (i : nat)
  (es : list CalendarEvent) :
  filter (is_property "LOCATION:") (events_lines H clock i es)
  = flat_map (fun e => optional_line "LOCATION:" (location e)) es
  /\ filter (is_property "DESCRIPTION:") (events_lines H clock i es)
     = flat_map (fun e => optional_line "DESCRIPTION:" (description e)) es.
Proof.
  revert i. induction es as [|e es IH]; intros i; [split; reflexivity|].
  cbn [events_lines flat_map]. rewrite !filter_app.
  destruct (IH (S i)) as [-> ->].
  destruct (filter_event_lines H (clock (2 * i)%nat) (clock (2 * i + 1)%nat)
              i e) as [-> ->].
  split; reflexivity.
Qed.

End BlockFacts.

Module UidFacts.
Import Converter Layout.

(** Two lists that agree up to the first occurrence of a separator. *)
Lemma first_separator {A : Type} (c : A) (x y p q : list A) :
  ~ In c x -> ~ In c y -> (x ++ c :: p = y ++ c :: q)%list -> x = y.
Proof.
  revert y. induction x as [|a x IH]; intros [|b y] Hx Hy E;
    cbn [List.app] in E.
  - reflexivity.
  - injection E as E _. subst b. exfalso. apply Hy. now left.
  - injection E as E _. subst a. exfalso. apply Hx. now left.
  - injection E as E1 E2. subst b. f_equal.
    apply IH; [| |exact E2]; intros Hi; [apply Hx | apply Hy]; now right.
Qed.

(** Two lists that agree from the last occurrence of a separator on. *)
Lemma last_separator {A : Type} (c : A) (x y p q : list A) :
  ~ In c x -> ~ In c y -> (p ++ c :: x = q ++ c :: y)%list -> x = y.
Proof.
  intros Hx Hy E.
  apply (f_equal (@List.rev A)) in E.
  rewrite !rev_app_distr in E. cbn [List.rev] in E.
  rewrite <- !List.app_assoc in E. cbn [List.app] in E.
  apply first_separator in E; [|rewrite <- in_rev; assumption ..].
  rewrite <- (rev_involutive x), <- (rev_involutive y). now rewrite E.
Qed.

Lemma index_toString_inj (i j : nat) :
  index_toString i = index_toString j -> i = j.
Proof.
  unfold index_toString. intros E.
  assert (Hn : forall n, Nat.to_uint n <> Decimal.Nil).
  { intros n. rewrite <- (Unsigned.of_to n) at 1. rewrite Unsigned.to_of.
    apply unorm_nonnil. }
  apply (f_equal NilZero.uint_of_string) in E.
  rewrite !NilZero.usu in E by apply Hn.
  injection E as E. now apply Unsigned.to_uint_inj.
Qed.

(** The index is what stands between the last hyphen of a UID line and
    the namespace: UID lines of different indices differ, whatever the
    clock showed. *)
Lemma uid_line_inj (now1 now2 : Z) (i j : nat) :
  uid_line now1 i = uid_line now2 j -> i = j.
Proof.
  unfold uid_line. intros E.
  rewrite <- !(StrFacts.app_assoc _ _ "@calendar-converter") in E.
  rewrite <- !(StrFacts.app_assoc _ _ ("-" ++ _)) in E.
  rewrite <- 2!(StrFacts.app_assoc _ "-" _) in E.
  apply StrFacts.app_inv_tail in E.
  apply (f_equal list_ascii_of_string) in E.
  rewrite !(StrFacts.to_list_app _ (index_toString _)) in E.
  rewrite !(StrFacts.to_list_app _ "-") in E.
  cbn [list_ascii_of_string] in E.
  rewrite <- !List.app_assoc in E. cbn [List.app] in E.
  apply index_toString_inj, StrFacts.to_list_inj.
  refine (last_separator "-"%char _ _ _ _ _ _ E);
    rewrite <- StrFacts.has_char_In;
    now rewrite LinesFacts.index_toString_has_char.
Qed.

End UidFacts.

Module DecoderFacts.
Import JSDate ISO Converter Layout Decoder JSDateFacts ISOFacts FormatFacts
  RunFacts LinesFacts.

(** Under a clock in range the run succeeds exactly when every event
    parses. *)
Lemma run_ok_parseable (H : Host) (clock : nat -> Z) (i : nat)
  (es : list CalendarEvent) :
  clock_ok clock -> run_ok H clock i es = forallb (parseable H) es.
Proof.
  intros Hc. revert i. induction es as [|e es IH]; intros i; [reflexivity|].
  cbn [run_ok forallb]. rewrite IH.
  unfold parses at 1. rewrite Date_parse_ISOString by apply Hc.
  reflexivity.
Qed.

Lemma whole_second4_spec (d : Date) :
  whole_second4 d = true ->
  exists t, d = Some t /\ year4 t /\ msFromTime t = 0.
Proof.
  destruct d as [t|]; [|discriminate]. cbn [whole_second4]. intros E.
  apply andb_true_iff in E as [E Hms]. apply andb_true_iff in E as [H0 H9].
  exists t. unfold year4. repeat split; lia.
Qed.

Lemma representable_parseable (H : Host) (e : CalendarEvent) :
  representable H e = true -> parseable H e = true.
Proof.
  unfold representable, parseable, parses. intros E.
  apply andb_true_iff in E as [E Hb]. apply andb_true_iff in E as [_ Ha].
  destruct (new_Date H (start e)), (new_Date H (end_ e));
    first [reflexivity | discriminate].
Qed.

(** Reading back a timestamp on a whole second. *)
Lemma parse_utc_basic (t : Z) :
  year4 t -> msFromTime t = 0 -> parse_utc (basic_utc t) = Some t.
Proof.
  intros Hy Hms. unfold year4 in Hy.
  pose proof (MonthFromTime_range t) as Hmo.
  pose proof (DateFromTime_range t) as Hd.
  pose proof (DateFromTime_le_31 t) as Hd'.
  pose proof (HourFromTime_range t) as Hh.
  pose proof (MinFromTime_range t) as Hmi.
  pose proof (SecFromTime_range t) as Hs.
  unfold parse_utc, basic_utc.
  rewrite read_digits_pad by (change (10 ^ Z.of_nat 4) with 10000; lia).
  rewrite read_digits_pad by (change (10 ^ Z.of_nat 2) with 100; lia).
  rewrite read_digits_pad by (change (10 ^ Z.of_nat 2) with 100; lia).
  cbn [String.append read_char Ascii.eqb Bool.eqb].
  rewrite read_digits_pad by (change (10 ^ Z.of_nat 2) with 100; lia).
  rewrite read_digits_pad by (change (10 ^ Z.of_nat 2) with 100; lia).
  rewrite read_digits_pad by (change (10 ^ Z.of_nat 2) with 100; lia).
  cbn [String.append read_char Ascii.eqb Bool.eqb].
  replace (MonthFromTime t + 1 - 1) with (MonthFromTime t) by lia.
  fold (InLeapYear t).
  repeat match goal with
         | |- context [?a <=? ?b] =>
             destruct (Z.leb_spec a b); [|lia]
         end.
  cbn [andb]. rewrite <- Hms. now rewrite MakeDate_fields.
Qed.

Lemma truthy_text (o : option string) :
  truthy o = true -> Some (text_of o) = o.
Proof. destruct o as [[|a s]|]; first [discriminate | reflexivity]. Qed.

(** The decoder reads the block of a representable event as the event. *)
Lemma decode_event_lines (H : Host) (now1 now2 : Z) (i : nat)
  (e : CalendarEvent) (rest : list string) (done : list Decoded) :
  representable H e = true ->
  decode_lines (event_lines H now1 now2 i e ++ rest) None done
  = decode_lines rest None (normalize H e :: done).
Proof.
  unfold representable. intros E.
  apply andb_true_iff in E as [E Hb]. apply andb_true_iff in E as [_ Ha].
  apply whole_second4_spec in Ha as (a & Ea & Hya & Hma).
  apply whole_second4_spec in Hb as (b & Eb & Hyb & Hmb).
  unfold event_lines, normalize, instant, uid_line, optional_line.
  rewrite (formatDateToICS_year4 H _ a Ea Hya).
  rewrite (formatDateToICS_year4 H _ b Eb Hyb).
  rewrite Ea, Eb.
  cbn [value_of List.app decode_lines String.eqb Ascii.eqb Bool.eqb
       String.append property strip blank p_title p_start p_end p_location
       p_description].
  rewrite !parse_utc_basic by assumption.
  destruct (truthy (location e)) eqn:Hl, (truthy (description e)) eqn:Hd;
    cbn [value_of List.app decode_lines String.eqb Ascii.eqb Bool.eqb
         String.append property strip blank p_title p_start p_end p_location
         p_description finish];
    rewrite ?truthy_text by assumption; reflexivity.
Qed.

Lemma decode_events_lines (H : Host) (clock : nat -> Z) (i : nat)
  (es : list CalendarEvent) (rest : list string) (done : list Decoded) :
  forallb (representable H) es = true ->
  decode_lines (events_lines H clock i es ++ rest) None done
  = decode_lines rest None (List.rev (map (normalize H) es) ++ done).
Proof.
  revert i done. induction es as [|e es IH]; intros i done Hes.
  - reflexivity.
  - cbn [forallb] in Hes. apply andb_true_iff in Hes as [He Hes].
    cbn [events_lines map List.rev].
    rewrite <- !List.app_assoc, decode_event_lines by assumption.
    rewrite IH by assumption. reflexivity.
Qed.

Lemma decode_calendar_lines (H : Host) (clock : nat -> Z)
  (es : list CalendarEvent) :
  forallb (representable H) es = true ->
  decode_lines (calendar_lines H clock es) None []
  = Some (map (normalize H) es).
Proof.
  intros Hes. unfold calendar_lines, header_lines.
  cbn [List.app decode_lines String.eqb Ascii.eqb Bool.eqb].
  rewrite decode_events_lines by assumption.
  cbn [decode_lines String.eqb Ascii.eqb Bool.eqb].
  now rewrite List.app_nil_r, rev_involutive.
Qed.

End DecoderFacts.

Module ClockFacts.
Import ISO Converter Layout.

(** The events from position [i] on read the clock from read [2 i] on. *)
Lemma events_lines_ext (H : Host) (c1 c2 : nat -> Z) (i : nat)
  (es : list CalendarEvent) :
  (forall n, (2 * i <= n < 2 * (i + List.length es))%nat -> c1 n = c2 n) ->
  events_lines H c1 i es = events_lines H c2 i es
  /\ run_ok H c1 i es = run_ok H c2 i es.
Proof.
  revert i. induction es as [|e es IH]; intros i Hc; [split; reflexivity|].
  cbn [List.length] in Hc. cbn [events_lines run_ok].
  rewrite (Hc (2 * i)%nat), (Hc (2 * i + 1)%nat) by lia.
  destruct (IH (S i)) as [-> ->]; [|split; reflexivity].
  intros n Hn. apply Hc. lia.
Qed.

Lemma ends_with_same_length (t u a : string) :
  String.length t = String.length u ->
  Str.ends_with t (a ++ u) = String.eqb u t.
Proof.
  intros Hl. unfold Str.ends_with. rewrite StrFacts.length_app, Hl.
  replace (String.length a + String.length u - String.length u)%nat
    with (String.length a) by lia.
  rewrite StrFacts.substring_app_tail.
  replace (String.length u <=? String.length a + String.length u)%nat
    with true; [reflexivity|].
  symmetry. apply Nat.leb_le. lia.
Qed.

Lemma has_char_concat (c : ascii) (sep : string) (ls : list string) :
  Str.has_char c sep = false ->
  Forall (fun l => Str.has_char c l = false) ls ->
  Str.has_char c (String.concat sep ls) = false.
Proof.
  intros Hs Hls. induction Hls as [|l ls Hl Hls IH]; [reflexivity|].
  destruct ls as [|l' ls]; [exact Hl|].
  change (String.concat sep (l :: l' :: ls))
    with (l ++ sep ++ String.concat sep (l' :: ls)).
  now rewrite !StrFacts.has_char_app, Hl, Hs, IH.
Qed.

End ClockFacts.

Module ThrowFacts.
Import ISO Converter Layout.

Lemma parseable_spec (H : Host) (e : CalendarEvent) :
  parseable H e = true
  <-> new_Date H (start e) <> None /\ new_Date H (end_ e) <> None.
Proof.
  unfold parseable, parses.
  destruct (new_Date H (start e)), (new_Date H (end_ e)); cbn [andb];
    split; try discriminate; try (intros [? ?]; congruence);
    intros _; split; discriminate.
Qed.

Lemma unparseable_spec (H : Host) (e : CalendarEvent) :
  parseable H e = false
  <-> new_Date H (start e) = None \/ new_Date H (end_ e) = None.
Proof.
  unfold parseable, parses.
  destruct (new_Date H (start e)), (new_Date H (end_ e)); cbn [andb];
    split; try discriminate; try tauto; intros [?|?]; discriminate.
Qed.

Lemma all_parseable (H : Host) (events : list CalendarEvent) :
  forallb (parseable H) events = true
  <-> forall e, In e events ->
        new_Date H (start e) <> None /\ new_Date H (end_ e) <> None.
Proof.
  rewrite forallb_forall.
  split; intros Hall e He; apply parseable_spec; now apply Hall.
Qed.

Lemma some_unparseable (H : Host) (events : list CalendarEvent) :
  forallb (parseable H) events = false
  <-> exists e, In e events
        /\ (new_Date H (start e) = None \/ new_Date H (end_ e) = None).
Proof.
  induction events as [|e es IH]; cbn [forallb In].
  - split; [discriminate | intros (e & [] & _)].
  - rewrite andb_false_iff, IH, unparseable_spec. split.
    + intros [Hn | (e' & He' & Hn)]; [exists e | exists e']; tauto.
    + intros (e' & [<- | He'] & Hn); [now left | right; eauto].
Qed.

End ThrowFacts.

Module EffectFacts.
Import ISO Converter Layout.

(** The callback reads the clock twice, whether it returns or throws. *)
Lemma event_body_reads (H : Host) (clock : nat -> Z) (e : CalendarEvent)
  (i : nat) (st : Run) :
  reads (snd (event_body H clock e i st)) = S (S (reads st)).
Proof.
  unfold event_body, bind, append_ics, Date_now, new_Date_now, read_clock,
    call, ret, bind.
  cbn [reads icsContent toISOString].
  destruct (formatDateToICS H (ISOString (clock (S (reads st)))));
    [|reflexivity].
  destruct (formatDateToICS H (start e)); [|reflexivity].
  destruct (formatDateToICS H (end_ e)); [|reflexivity].
  destruct (truthy (location e)), (truthy (description e)); reflexivity.
Qed.

(** The loop reads the clock at most twice per event. *)
Lemma forEach_from_reads (H : Host) (clock : nat -> Z)
  (es : list CalendarEvent) (i : nat) (st : Run) :
  (reads (snd (forEach_from (event_body H clock) i es st))
   <= reads st + 2 * List.length es)%nat.
Proof.
  revert i st. induction es as [|e es IH]; intros i st.
  - cbn [forEach_from ret snd List.length]. lia.
  - cbn [forEach_from List.length]. unfold bind at 1.
    pose proof (event_body_reads H clock e i st) as Hr.
    destruct (event_body H clock e i st) as [[u|x] st1]; cbn [snd] in Hr |- *.
    + specialize (IH (S i) st1). lia.
    + lia.
Qed.

(** What a run of [generateICS] leaves behind when it returns: the clock
    read twice per event, and the document in its own variable. *)
Lemma generateICS_run_returns (H : Host) (clock : nat -> Z)
  (events : list CalendarEvent) (s : string) :
  generateICS H clock events = inl s ->
  generateICS_run H clock events {| reads := O; icsContent := header |}
  = (inl s, {| reads := 2 * List.length events; icsContent := s |}).
Proof.
  unfold generateICS, generateICS_run, forEach.
  set (st := {| reads := O; icsContent := header |}).
  destruct (run_ok H clock O events) eqn:Hok.
  - unfold bind at 1 3.
    rewrite (RunFacts.forEach_from_run H clock events O st eq_refl Hok).
    unfold bind, append_ics, get_ics. cbn [fst reads icsContent st Nat.add].
    now intros [= <-].
  - unfold bind at 1 3.
    pose proof (RunFacts.forEach_from_throws H clock events O st eq_refl Hok)
      as Ht.
    destruct (forEach_from (event_body H clock) O events st) as [[u|x] st'];
      cbn [fst] in Ht |- *; discriminate.
Qed.

Lemma generateICS_run_reads (H : Host) (clock : nat -> Z)
  (events : list CalendarEvent) :
  (reads (snd (generateICS_run H clock events
                 {| reads := O; icsContent := header |}))
   <= 2 * List.length events)%nat.
Proof.
  unfold generateICS_run, forEach.
  set (st := {| reads := O; icsContent := header |}).
  pose proof (forEach_from_reads H clock events O st) as Hr.
  unfold bind at 1.
  destruct (forEach_from (event_body H clock) O events st) as [[u|x] st'];
    cbn [snd] in Hr |- *; [|exact Hr].
  unfold bind, append_ics, get_ics. cbn [snd reads]. exact Hr.
Qed.

End EffectFacts.

(** The scenario of the specification: a midterm on 2025-03-10 from 09:00
    to 10:30, generated on 2025-01-01 with UTC as the local time zone. *)
Example midterm_scenario :
  exists s,
    Converter.generateICS Layout.utc_host Sample.new_year [Sample.midterm]
    = inl s
    /\ In "SUMMARY:Midterm" (Str.lines s)
    /\ In "DTSTART:20250310T090000Z" (Str.lines s)
    /\ In "DTEND:20250310T103000Z" (Str.lines s)
    /\ In "DTSTAMP:20250101T000000Z" (Str.lines s).
Proof.
  exists (Layout.join_lines
            (Layout.calendar_lines Layout.utc_host Sample.new_year
               [Sample.midterm])).
  split; [vm_compute; reflexivity|].
  vm_compute. intuition.
Qed.

(** * The properties of the encoder *)

Import JSDate ISO Converter Layout Sample.

(** C1, as stated, fails on a title of two lines: the second line of the
    title of [two_line_title] reads [BEGIN:VEVENT], so the document of this
    one event has two [BEGIN:VEVENT] lines and one [END:VEVENT] line. *)
Lemma one_block_per_event_counterexample :
  exists s,
    generateICS utc_host new_year [two_line_title] = inl s
    /\ Str.count_lines "BEGIN:VEVENT" s = 2%nat
    /\ Str.count_lines "END:VEVENT" s = 1%nat
    /\ List.length [two_line_title] = 1%nat.
Proof.
  exists (join_lines (calendar_lines utc_host new_year [two_line_title])).
  repeat split; vm_compute; reflexivity.
Qed.

(** C1, amended: when no text property of an event holds a line feed, the
    document [generateICS] returns starts with the calendar header, ends
    with [END:VCALENDAR], has one [BEGIN:VEVENT] line and one [END:VEVENT]
    line per event, and between the header and [END:VCALENDAR] its lines
    are the blocks of the events in the order of the events. *)
Theorem one_block_per_event (H : Host) (clock : nat -> Z)
  (events : list CalendarEvent) (s : string) :
  forallb single_line events = true ->
  generateICS H clock events = inl s ->
  String.prefix header s = true
  /\ Str.ends_with "END:VCALENDAR" s = true
  /\ Str.count_lines "BEGIN:VEVENT" s = List.length events
  /\ Str.count_lines "END:VEVENT" s = List.length events
  /\ exists blocks,
       Forall2 event_block events blocks
       /\ Str.lines s
          = (header_lines ++ List.concat blocks ++ ["END:VCALENDAR"])%list.
Proof.
  intros Hl Hs. apply RunFacts.generateICS_layout in Hs. subst s.
  destruct (BlockFacts.events_lines_blocks H clock O events)
    as (blocks & Hb & E).
  assert (L : Str.lines (join_lines (calendar_lines H clock events))
              = (header_lines ++ List.concat blocks ++ ["END:VCALENDAR"])%list).
  { rewrite LinesFacts.lines_join_calendar by assumption.
    unfold calendar_lines. now rewrite E. }
  assert (J : join_lines (calendar_lines H clock events)
              = header
                ++ terminated (events_lines H clock O events)
                ++ "END:VCALENDAR").
  { unfold calendar_lines.
    rewrite List.app_assoc, RunFacts.join_lines_snoc, RunFacts.terminated_app.
    now rewrite StrFacts.app_assoc. }
  split; [rewrite J; apply StrFacts.prefix_app|].
  split; [rewrite J, <- StrFacts.app_assoc; apply StrFacts.ends_with_app|].
  unfold Str.count_lines. rewrite L, !filter_app, !List.length_app.
  rewrite !(BlockFacts.count_blocks _ events blocks) by auto.
  unfold header_lines.
  cbn [filter String.eqb Ascii.eqb Bool.eqb List.length].
  repeat split; [lia | lia |].
  exists blocks. now split.
Qed.

Lemma one_block_per_event_witness :
  forallb single_line [midterm; lecture] = true
  /\ Str.count_lines "BEGIN:VEVENT"
       (join_lines (calendar_lines utc_host new_year [midterm; lecture]))
     = 2%nat.
Proof.
  assert (Hl : forallb single_line [midterm; lecture] = true)
    by (vm_compute; reflexivity).
  assert (Hs : generateICS utc_host new_year [midterm; lecture]
               = inl (join_lines
                        (calendar_lines utc_host new_year [midterm; lecture])))
    by (vm_compute; reflexivity).
  split; [exact Hl|].
  exact (proj1 (proj2 (proj2
           (one_block_per_event utc_host new_year [midterm; lecture] _ Hl Hs)))).
Defined.

(** C2: a valid date in a year of four digits is formatted by
    [formatDateToICS] as the UTC fields of the instant, [YYYYMMDDTHHMMSSZ],
    which matches [^\d{8}T\d{6}Z$].  So, under a clock that shows time
    values, when the start and the end of every event are valid dates in
    such years, [generateICS] returns the document, and in the block of
    every event the [DTSTART] and [DTEND] values are the start and the end
    in that form, and so is the [DTSTAMP] value when the clock shows an
    instant in such a year. *)
Theorem timestamps_basic_utc (H : Host) (clock : nat -> Z)
  (events : list CalendarEvent) :
  clock_ok clock ->
  forallb (timed4 H) events = true ->
  (forall s t, new_Date H s = Some t -> year4 t ->
     formatDateToICS H s = inl (basic_utc t)
     /\ is_basic_utc (basic_utc t) = true)
  /\ generateICS H clock events
     = inl (join_lines (calendar_lines H clock events))
  /\ forall i e, nth_error events i = Some e ->
       exists stamp dtstart dtend : string,
         event_lines H (clock (2 * i)%nat) (clock (2 * i + 1)%nat) i e
         = (["BEGIN:VEVENT"; uid_line (clock (2 * i)%nat) i;
             ("DTSTAMP:" ++ stamp)%string; ("DTSTART:" ++ dtstart)%string;
             ("DTEND:" ++ dtend)%string; ("SUMMARY:" ++ title e)%string]
            ++ optional_line "LOCATION:" (location e)
            ++ optional_line "DESCRIPTION:" (description e)
            ++ ["END:VEVENT"])%list
         /\ formatDateToICS H (ISOString (clock (2 * i + 1)%nat)) = inl stamp
         /\ formatDateToICS H (start e) = inl dtstart
         /\ formatDateToICS H (end_ e) = inl dtend
         /\ dtstart = basic_utc (instant H (start e))
         /\ dtend = basic_utc (instant H (end_ e))
         /\ is_basic_utc dtstart = true
         /\ is_basic_utc dtend = true
         /\ (year4 (clock (2 * i + 1)%nat) ->
             stamp = basic_utc (clock (2 * i + 1)%nat)
             /\ is_basic_utc stamp = true).
Proof.
  intros C Hes.
  assert (F : forall s t, new_Date H s = Some t -> year4 t ->
                formatDateToICS H s = inl (basic_utc t)
                /\ is_basic_utc (basic_utc t) = true).
  { intros s t E Hy. split.
    - now apply FormatFacts.formatDateToICS_year4.
    - apply FormatFacts.basic_utc_matches. }
  assert (D : forall d, four_digit d = true -> exists t, d = Some t /\ year4 t).
  { intros [t|]; [|discriminate]. cbn [four_digit]. intros E.
    apply andb_true_iff in E as [E0 E9]. exists t. unfold year4.
    split; [reflexivity | lia]. }
  split; [exact F|]. split.
  - rewrite RunFacts.generateICS_spec, DecoderFacts.run_ok_parseable by exact C.
    replace (forallb (parseable H) events) with true; [reflexivity|].
    symmetry. apply forallb_forall. intros e He.
    rewrite forallb_forall in Hes. specialize (Hes e He).
    unfold timed4 in Hes. apply andb_true_iff in Hes as [Ha Hb].
    apply D in Ha as (a & Ea & _). apply D in Hb as (b & Eb & _).
    unfold parseable, parses. now rewrite Ea, Eb.
  - intros i e Hi. apply nth_error_In in Hi.
    rewrite forallb_forall in Hes. specialize (Hes e Hi).
    unfold timed4 in Hes. apply andb_true_iff in Hes as [Ha Hb].
    apply D in Ha as (a & Ea & Hya). apply D in Hb as (b & Eb & Hyb).
    pose proof (ISOFacts.Date_parse_ISOString H _ (C (2 * i + 1)%nat)) as En.
    pose proof (FormatFacts.formatDateToICS_Some H _ _ En) as Fn.
    destruct (F _ _ Ea Hya) as [Fa Ma].
    destruct (F _ _ Eb Hyb) as [Fb Mb].
    eexists _, (basic_utc a), (basic_utc b).
    unfold event_lines, instant. rewrite Fn, Fa, Fb, Ea, Eb.
    cbn [value_of]. repeat split; try assumption; try reflexivity.
    + now apply FormatFacts.format_year4.
    + rewrite FormatFacts.format_year4 by assumption.
      apply FormatFacts.basic_utc_matches.
Qed.

Lemma timestamps_basic_utc_witness :
  clock_ok new_year
  /\ forallb (timed4 utc_host) [midterm; lecture] = true
  /\ generateICS utc_host new_year [midterm; lecture]
     = inl (join_lines (calendar_lines utc_host new_year [midterm; lecture])).
Proof.
  assert (Hc : clock_ok new_year).
  { intros n. unfold new_year, maxTime. lia. }
  assert (Hes : forallb (timed4 utc_host) [midterm; lecture] = true)
    by (vm_compute; reflexivity).
  split; [exact Hc|]. split; [exact Hes|].
  exact (proj1 (proj2
           (timestamps_basic_utc utc_host new_year [midterm; lecture] Hc Hes))).
Defined.

(** C3: under a clock that shows time values, [generateICS] throws (the
    [RangeError] of [toISOString], and nothing else) exactly when the start
    or the end of some event is no valid date, and returns a document
    exactly when all of them are valid dates; the order of start and end
    plays no part, so events that end before they start are encoded. *)
Theorem generateICS_throws_iff (H : Host) (clock : nat -> Z)
  (events : list CalendarEvent) :
  clock_ok clock ->
  (generateICS H clock events = inr (RangeError "Invalid time value")
   <-> exists e, In e events
                 /\ (new_Date H (start e) = None \/ new_Date H (end_ e) = None))
  /\ ((forall e, In e events ->
         new_Date H (start e) <> None /\ new_Date H (end_ e) <> None)
      <-> exists s, generateICS H clock events = inl s)
  /\ (forall x, generateICS H clock events = inr x ->
        x = RangeError "Invalid time value")
  /\ ((forall e, In e events ->
         exists a b, new_Date H (start e) = Some a
                     /\ new_Date H (end_ e) = Some b /\ b < a) ->
      exists s, generateICS H clock events = inl s).
Proof.
  intros Hc.
  rewrite RunFacts.generateICS_spec, DecoderFacts.run_ok_parseable by exact Hc.
  pose proof (ThrowFacts.all_parseable H events) as A.
  pose proof (ThrowFacts.some_unparseable H events) as B.
  destruct (forallb (parseable H) events) eqn:Hf.
  - split; [|split; [|split]].
    + split; [discriminate|]. intros Hn. apply B in Hn. discriminate.
    + split; [eauto|]. intros _. now apply A.
    + discriminate.
    + eauto.
  - split; [|split; [|split]].
    + split; [intros _; now apply B | reflexivity].
    + split; [|intros [s Hs]; discriminate].
      intros Hall. apply A in Hall. discriminate.
    + now intros x [= <-].
    + intros Hall. assert (Ht : false = true); [|discriminate].
      apply A. intros e He. destruct (Hall e He) as (a & b & -> & -> & _).
      split; discriminate.
Qed.

Lemma generateICS_throws_iff_witness :
  clock_ok new_year
  /\ generateICS utc_host new_year [midterm; open_ended]
     = inr (RangeError "Invalid time value")
  /\ exists s, generateICS utc_host new_year [backwards] = inl s.
Proof.
  assert (Hc : clock_ok new_year).
  { intros n. unfold new_year, maxTime. lia. }
  split; [exact Hc|]. split.
  - apply (proj1 (generateICS_throws_iff utc_host new_year
                    [midterm; open_ended] Hc)).
    exists open_ended. split; [right; left; reflexivity|].
    right. vm_compute. reflexivity.
  - apply (proj2 (proj2 (proj2
             (generateICS_throws_iff utc_host new_year [backwards] Hc)))).
    intros e [<-|[]].
    exists 1741602600000, 1741597200000.
    repeat split; vm_compute; reflexivity.
Defined.

(** C4, as stated, fails.  The events [smuggled] and [in_room_7] differ and
    get the same document, so that no decoder recovers both; the decoder
    reads the second line of the title of [smuggled] as a location.  The
    half second of the start of [half_second] is not in the document.  The
    start of [far_future], in a year of five digits, is written with a sign
    and six digits and is not read back. *)
Lemma decode_generateICS_counterexample :
  (generateICS utc_host new_year [smuggled]
   = generateICS utc_host new_year [in_room_7]
   /\ normalize utc_host smuggled <> normalize utc_host in_room_7
   /\ exists s, generateICS utc_host new_year [smuggled] = inl s
                /\ Decoder.decode s = Some [normalize utc_host in_room_7])
  /\ (exists s d, generateICS utc_host new_year [half_second] = inl s
                  /\ Decoder.decode s = Some [d]
                  /\ Decoder.d_start d = 1741597200000
                  /\ instant utc_host (start half_second) = 1741597200500)
  /\ (exists s, generateICS utc_host new_year [far_future] = inl s
                /\ Decoder.decode s = None).
Proof.
  split; [split; [|split]|split].
  - vm_compute. reflexivity.
  - vm_compute. discriminate.
  - exists (join_lines (calendar_lines utc_host new_year [smuggled])).
    split; vm_compute; reflexivity.
  - exists (join_lines (calendar_lines utc_host new_year [half_second])),
      {| Decoder.d_title := "Start of the race";
         Decoder.d_start := 1741597200000;
         Decoder.d_end := 1741602600000;
         Decoder.d_location := None;
         Decoder.d_description := None |}.
    repeat split; vm_compute; reflexivity.
  - exists (join_lines (calendar_lines utc_host new_year [far_future])).
    split; vm_compute; reflexivity.
Qed.

(** C4, amended: under a clock that shows time values, when every event
    has text properties without line feed and a start and an end that are
    valid dates on whole seconds in years of four digits, [generateICS]
    returns a document from which the decoder reads back, in order, the
    title of every event, its location and its description (an empty one
    as absent), and the UTC time values of its start and its end. *)
Theorem decode_generateICS (H : Host) (clock : nat -> Z)
  (events : list CalendarEvent) :
  clock_ok clock ->
  forallb (representable H) events = true ->
  exists s,
    generateICS H clock events = inl s
    /\ Decoder.decode s = Some (map (normalize H) events).
Proof.
  intros Hc Hes.
  assert (Hp : forallb (parseable H) events = true).
  { apply forallb_forall. intros e He.
    apply DecoderFacts.representable_parseable.
    rewrite forallb_forall in Hes. now apply Hes. }
  assert (Hl : forallb single_line events = true).
  { apply forallb_forall. intros e He.
    rewrite forallb_forall in Hes. specialize (Hes e He).
    unfold representable in Hes.
    apply andb_true_iff in Hes as [Hes _].
    now apply andb_true_iff in Hes as [Hes _]. }
  exists (join_lines (calendar_lines H clock events)). split.
  - rewrite RunFacts.generateICS_spec, DecoderFacts.run_ok_parseable by exact Hc.
    now rewrite Hp.
  - unfold Decoder.decode.
    rewrite LinesFacts.lines_join_calendar by exact Hl.
    now apply DecoderFacts.decode_calendar_lines.
Qed.

Lemma decode_generateICS_witness :
  clock_ok new_year
  /\ forallb (representable utc_host) [midterm; lecture; backwards] = true
  /\ exists s,
       generateICS utc_host new_year [midterm; lecture; backwards] = inl s
       /\ Decoder.decode s
          = Some (map (normalize utc_host) [midterm; lecture; backwards]).
Proof.
  assert (Hc : clock_ok new_year).
  { intros n. unfold new_year, maxTime. lia. }
  assert (Hes : forallb (representable utc_host) [midterm; lecture; backwards]
                = true) by (vm_compute; reflexivity).
  split; [exact Hc|]. split; [exact Hes|].
  exact (decode_generateICS utc_host new_year [midterm; lecture; backwards]
           Hc Hes).
Defined.

(** C5: with no event [generateICS] returns, without reading the clock or
    parsing anything, the document of the four lines of an empty calendar:
    [BEGIN:VCALENDAR] and [END:VCALENDAR] are there and no [BEGIN:VEVENT]
    or [END:VEVENT] line is. *)
Theorem generateICS_no_events (H : Host) (clock : nat -> Z) :
  exists s,
    generateICS H clock [] = inl s
    /\ s = "BEGIN:VCALENDAR" ++ nl ++ "VERSION:2.0" ++ nl
           ++ "PRODID:-//Calendar Photo Converter//EN" ++ nl
           ++ "END:VCALENDAR"
    /\ Str.lines s
       = ["BEGIN:VCALENDAR"; "VERSION:2.0";
          "PRODID:-//Calendar Photo Converter//EN"; "END:VCALENDAR"]
    /\ Str.count_lines "BEGIN:VEVENT" s = 0%nat
    /\ Str.count_lines "END:VEVENT" s = 0%nat.
Proof.
  exists (header ++ "END:VCALENDAR").
  repeat split; vm_compute; reflexivity.
Qed.

(** C6, as stated, fails: [two_line_description] has no location, and the
    second line of its description is a [LOCATION:] line of the
    document. *)
Lemma optional_lines_counterexample :
  location two_line_description = None
  /\ exists s,
       generateICS utc_host new_year [two_line_description] = inl s
       /\ filter (is_property "LOCATION:") (Str.lines s) = ["LOCATION:Room 7"].
Proof.
  split; [reflexivity|].
  exists (join_lines (calendar_lines utc_host new_year [two_line_description])).
  split; vm_compute; reflexivity.
Qed.

(** C6, amended: when no text property of an event holds a line feed, the
    [LOCATION:] lines of the document are those of the events whose
    location is present and not empty, in order, each with the location as
    its value, and likewise for [DESCRIPTION:]: an event whose location is
    absent or the empty string has no [LOCATION:] line. *)
Theorem optional_lines (H : Host) (clock : nat -> Z)
  (events : list CalendarEvent) (s : string) :
  forallb single_line events = true ->
  generateICS H clock events = inl s ->
  filter (is_property "LOCATION:") (Str.lines s)
  = flat_map (fun e => optional_line "LOCATION:" (location e)) events
  /\ filter (is_property "DESCRIPTION:") (Str.lines s)
     = flat_map (fun e => optional_line "DESCRIPTION:" (description e)) events
  /\ (forall name, optional_line name None = []
                   /\ optional_line name (Some EmptyString) = [])
  /\ (forall name a v,
        optional_line name (Some (String a v)) = [name ++ String a v]).
Proof.
  intros Hl Hs. apply RunFacts.generateICS_layout in Hs. subst s.
  rewrite LinesFacts.lines_join_calendar by assumption.
  unfold calendar_lines, header_lines. rewrite !filter_app.
  destruct (BlockFacts.filter_events_lines H clock O events) as [-> ->].
  unfold is_property.
  cbn [filter Decoder.strip Ascii.eqb Bool.eqb List.app].
  rewrite !List.app_nil_r. repeat split; reflexivity.
Qed.

Lemma optional_lines_witness :
  forallb single_line [midterm; lecture; backwards] = true
  /\ filter (is_property "LOCATION:")
       (Str.lines
          (join_lines
             (calendar_lines utc_host new_year [midterm; lecture; backwards])))
     = ["LOCATION:Room 101"].
Proof.
  assert (Hl : forallb single_line [midterm; lecture; backwards] = true)
    by (vm_compute; reflexivity).
  assert (Hs : generateICS utc_host new_year [midterm; lecture; backwards]
               = inl (join_lines
                        (calendar_lines utc_host new_year
                           [midterm; lecture; backwards])))
    by (vm_compute; reflexivity).
  split; [exact Hl|].
  exact (proj1 (optional_lines utc_host new_year [midterm; lecture; backwards]
                  _ Hl Hs)).
Defined.

(** C7, as stated, fails: [generateICS] takes no generation timestamp but
    reads the clock twice per event, and what [new Date] makes of a start
    or an end without offset depends on the time zone of the machine.  Two
    runs on the same events that start at the same instant differ when the
    clock moves on during one of them, and two runs on the same events
    under the same clock differ between a machine on UTC and one on the
    time of Kolkata. *)
Lemma generateICS_clock_readings_counterexample :
  (new_year O = ticking O
   /\ generateICS utc_host new_year [midterm; lecture]
      <> generateICS utc_host ticking [midterm; lecture])
  /\ generateICS utc_host new_year [midterm]
     <> generateICS kolkata new_year [midterm].
Proof.
  split; [split; [reflexivity|]|]; vm_compute; discriminate.
Qed.

(** C7, amended: on one host, that is one engine's [Date] parser and one
    time zone, the result of [generateICS] is determined by the events and
    the readings of the clock during the run, two per event: runs on the
    same events that read the same values return the same result.  In
    particular a run during which the clock shows one instant [now] returns
    what the events and [now] determine.  The effects of a run are its
    readings of the clock, two per event when it returns and at most that
    many when it throws, and the writes to its own [icsContent], which
    holds the document returned. *)
Theorem generateICS_clock_readings (H : Host) (clock1 clock2 : nat -> Z)
  (events : list CalendarEvent) :
  (forall n, (n < 2 * List.length events)%nat -> clock1 n = clock2 n) ->
  generateICS H clock1 events = generateICS H clock2 events
  /\ (forall s, generateICS H clock1 events = inl s ->
        generateICS_run H clock1 events {| reads := O; icsContent := header |}
        = (inl s, {| reads := 2 * List.length events; icsContent := s |}))
  /\ (reads (snd (generateICS_run H clock1 events
                    {| reads := O; icsContent := header |}))
      <= 2 * List.length events)%nat.
Proof.
  intros Hc. split; [|split].
  - rewrite !RunFacts.generateICS_spec. unfold calendar_lines.
    destruct (ClockFacts.events_lines_ext H clock1 clock2 O events)
      as [-> ->]; [|reflexivity].
    intros n Hn. apply Hc. cbn [Nat.add] in Hn. lia.
  - apply EffectFacts.generateICS_run_returns.
  - apply EffectFacts.generateICS_run_reads.
Qed.

Lemma generateICS_clock_readings_witness :
  generateICS utc_host new_year [midterm] = generateICS utc_host ticking [midterm].
Proof.
  apply (generateICS_clock_readings utc_host new_year ticking [midterm]).
  intros n Hn. cbn [List.length Nat.mul Nat.add] in Hn.
  unfold new_year, ticking.
  destruct n as [|[|n]]; [reflexivity | reflexivity | lia].
Defined.

(** C8: in the document [generateICS] returns, the second line of the block
    of the event at position [i] is
    [UID:<Date.now()>-<i>@calendar-converter], and the UID lines of events
    at different positions differ, whatever the clock showed. *)
Theorem uid_lines_distinct (H : Host) (clock : nat -> Z)
  (events : list CalendarEvent) (s : string) :
  generateICS H clock events = inl s ->
  s = join_lines (calendar_lines H clock events)
  /\ forall i j ei ej,
       nth_error events i = Some ei -> nth_error events j = Some ej ->
       i <> j ->
       nth 1 (event_lines H (clock (2 * i)%nat) (clock (2 * i + 1)%nat) i ei)
         EmptyString
       = "UID:" ++ Number_toString (clock (2 * i)%nat) ++ "-"
         ++ index_toString i ++ "@calendar-converter"
       /\ nth 1 (event_lines H (clock (2 * j)%nat) (clock (2 * j + 1)%nat) j ej)
            EmptyString
          = "UID:" ++ Number_toString (clock (2 * j)%nat) ++ "-"
            ++ index_toString j ++ "@calendar-converter"
       /\ "UID:" ++ Number_toString (clock (2 * i)%nat) ++ "-"
          ++ index_toString i ++ "@calendar-converter"
          <> "UID:" ++ Number_toString (clock (2 * j)%nat) ++ "-"
             ++ index_toString j ++ "@calendar-converter".
Proof.
  intros Hs. split; [now apply RunFacts.generateICS_layout|].
  intros i j ei ej _ _ Hij.
  split; [reflexivity|]. split; [reflexivity|].
  intros E. apply Hij.
  exact (UidFacts.uid_line_inj _ _ _ _ E).
Qed.

Lemma uid_lines_distinct_witness :
  "UID:" ++ Number_toString (new_year 0%nat) ++ "-" ++ index_toString 0
  ++ "@calendar-converter"
  <> "UID:" ++ Number_toString (new_year 2%nat) ++ "-" ++ index_toString 1
     ++ "@calendar-converter".
Proof.
  assert (Hs : generateICS utc_host new_year [midterm; lecture]
               = inl (join_lines
                        (calendar_lines utc_host new_year [midterm; lecture])))
    by (vm_compute; reflexivity).
  exact (proj2 (proj2
           (proj2 (uid_lines_distinct utc_host new_year [midterm; lecture] _ Hs)
              0%nat 1%nat midterm lecture eq_refl eq_refl
              (fun E : 0%nat = 1%nat => O_S 0 E)))).
Defined.

(** C9: the document [generateICS] returns is the lines it wrote joined by
    single line feeds, with nothing after the last line: it ends with
    [END:VCALENDAR] and not with a line feed or a carriage return, and when
    no text property of an event holds a carriage return the document
    holds none. *)
Theorem lines_joined_by_line_feed (H : Host) (clock : nat -> Z)
  (events : list CalendarEvent) (s : string) :
  generateICS H clock events = inl s ->
  s = String.concat (String Str.LF EmptyString) (calendar_lines H clock events)
  /\ last (calendar_lines H clock events) EmptyString = "END:VCALENDAR"
  /\ Str.ends_with "END:VCALENDAR" s = true
  /\ Str.ends_with (String Str.LF EmptyString) s = false
  /\ Str.ends_with (String Str.CR EmptyString) s = false
  /\ (forallb no_CR events = true -> Str.has_char Str.CR s = false).
Proof.
  intros Hs. apply RunFacts.generateICS_layout in Hs. subst s.
  assert (J : join_lines (calendar_lines H clock events)
              = (header ++ terminated (events_lines H clock O events)
                 ++ "END:VCALENDA") ++ "R").
  { unfold calendar_lines.
    rewrite List.app_assoc, RunFacts.join_lines_snoc, RunFacts.terminated_app.
    now rewrite !StrFacts.app_assoc. }
  split; [reflexivity|]. split.
  { unfold calendar_lines. rewrite List.app_assoc. apply last_last. }
  split.
  { unfold calendar_lines.
    rewrite List.app_assoc, RunFacts.join_lines_snoc.
    apply StrFacts.ends_with_app. }
  split; [rewrite J; now rewrite ClockFacts.ends_with_same_length|].
  split; [rewrite J; now rewrite ClockFacts.ends_with_same_length|].
  intros Hcr. apply ClockFacts.has_char_concat; [reflexivity|].
  apply LinesFacts.calendar_lines_has_char; [right; reflexivity | exact Hcr].
Qed.

Lemma lines_joined_by_line_feed_witness :
  Str.ends_with "END:VCALENDAR"
    (join_lines (calendar_lines utc_host new_year [midterm; lecture])) = true
  /\ Str.ends_with (String Str.LF EmptyString)
       (join_lines (calendar_lines utc_host new_year [midterm; lecture]))
     = false.
Proof.
  assert (Hs : generateICS utc_host new_year [midterm; lecture]
               = inl (join_lines
                        (calendar_lines utc_host new_year [midterm; lecture])))
    by (vm_compute; reflexivity).
  pose proof (lines_joined_by_line_feed utc_host new_year [midterm; lecture]
                _ Hs) as (_ & _ & He & Hn & _).
  split; [exact He | exact Hn].
Defined.

(** C10: in Photo.jsx, [downloadICS] saves one file, [calendar.ics] of type
    [text/calendar], whose content is the stored [icsData] as it is; after
    a successful response whose first content block has the text [s], the
    stored value is [s] and the file saved is [s], for every string [s]. *)
Theorem downloadICS_saves_icsData (st : Photo.State) (b : Photo.Browser) :
  Photo.saved (Photo.downloadICS st b)
  = (Photo.saved b
     ++ [{| Photo.file_name := "calendar.ics";
            Photo.file_type := "text/calendar";
            Photo.file_content := Photo.ToString (Photo.icsData st) |}])%list
  /\ Photo.body (Photo.downloadICS st b) = Photo.body b
  /\ forall (s ty : string) (msg : option string)
       (more : list Photo.ContentBlock),
       let r := {| Photo.ok := true; Photo.error_message := msg;
                   Photo.content :=
                     {| Photo.block_type := ty; Photo.text := Photo.JsString s |}
                     :: more |} in
       Photo.icsData (Photo.on_response r st) = Photo.JsString s
       /\ Photo.saved (Photo.downloadICS (Photo.on_response r st) b)
          = (Photo.saved b
             ++ [{| Photo.file_name := "calendar.ics";
                    Photo.file_type := "text/calendar";
                    Photo.file_content := s |}])%list.
Proof.
  split; [reflexivity|]. split.
  - unfold Photo.downloadICS, Photo.removeChild, Photo.click,
      Photo.appendChild.
    cbn [Photo.href Photo.download Photo.body Photo.saved].
    apply removelast_last.
  - intros s ty msg more r. split; reflexivity.
Qed.

Module TextFacts.
Import Text.

Section Fences.
Variable m : string -> option nat.
Hypothesis m_fence :
  forall s n, m s = Some n -> starts_with fence s = true /\ (1 <= n)%nat.
Hypothesis fence_m : forall s, starts_with fence s = true -> m s <> None.

Lemma replace_unmatched (b : ascii) (t : string) :
  starts_with fence (String b t) = false ->
  replace_all m O (String b t) = String b (replace_all m O t).
Proof.
  intros Hu. cbn [replace_all].
  destruct (m (String b t)) as [[|k]|] eqn:E; try reflexivity.
  apply m_fence in E as [E _]. congruence.
Qed.

Lemma replace_matched (b : ascii) (t : string) :
  starts_with fence (String b t) = true ->
  exists k, replace_all m O (String b t) = replace_all m k t.
Proof.
  intros Hf. cbn [replace_all].
  destruct (m (String b t)) as [[|k]|] eqn:E.
  - apply m_fence in E as [_ E]. lia.
  - now exists k.
  - now apply fence_m in E.
Qed.

(** After an unmatched backtick the result does not go on with two more. *)
Lemma no_fence_at_head (s : string) :
  starts_with fence s = false ->
  starts_with fence (replace_all m O s) = false.
Proof.
  intros Hu.
  destruct s as [|a s1]; [reflexivity|].
  rewrite (replace_unmatched _ _ Hu).
  cbn [starts_with fence] in Hu |- *.
  destruct (Ascii.eqb "`" a) eqn:Ea; [|reflexivity]. cbn [andb] in Hu |- *.
  destruct s1 as [|b s2]; [reflexivity|].
  destruct (Ascii.eqb "`" b) eqn:Eb.
  - cbn [andb] in Hu.
    assert (Hu1 : starts_with fence (String b s2) = false).
    { cbn [starts_with fence]. rewrite Eb. cbn [andb].
      destruct s2 as [|c s3]; [reflexivity|].
      destruct s3 as [|d s4]; cbn [starts_with] in Hu |- *.
      - now rewrite andb_false_r.
      - destruct (Ascii.eqb "`" c); [|reflexivity].
        cbn [andb] in Hu. discriminate. }
    rewrite (replace_unmatched _ _ Hu1).
    cbn [starts_with]. rewrite Eb. cbn [andb].
    destruct s2 as [|c s3]; [reflexivity|].
    cbn [starts_with] in Hu.
    destruct (Ascii.eqb "`" c) eqn:Ec; [discriminate|].
    assert (Hu2 : starts_with fence (String c s3) = false).
    { cbn [starts_with fence]. now rewrite Ec. }
    rewrite (replace_unmatched _ _ Hu2).
    cbn [starts_with]. now rewrite Ec.
  - assert (Hu1 : starts_with fence (String b s2) = false).
    { cbn [starts_with fence]. now rewrite Eb. }
    rewrite (replace_unmatched _ _ Hu1).
    cbn [starts_with]. now rewrite Eb.
Qed.

(** No fence is left, wherever the scan stands. *)
Lemma replace_all_no_fence (k : nat) (s : string) :
  has_fence (replace_all m k s) = false.
Proof.
  revert k. induction s as [|a s IH]; intros k; [now destruct k|].
  destruct k as [|k]; [|apply IH].
  destruct (starts_with fence (String a s)) eqn:Hf.
  - destruct (replace_matched _ _ Hf) as (k & ->). apply IH.
  - pose proof (no_fence_at_head _ Hf) as Hh.
    rewrite (replace_unmatched _ _ Hf) in Hh |- *.
    cbn [has_fence]. now rewrite Hh, IH.
Qed.

(** A text without fence is left as it is. *)
Lemma replace_all_fence_free (s : string) :
  has_fence s = false -> replace_all m O s = s.
Proof.
  induction s as [|a s IH]; intros Hs; [reflexivity|].
  cbn [has_fence] in Hs. apply orb_false_iff in Hs as [Hu Hs].
  now rewrite (replace_unmatched _ _ Hu), IH.
Qed.

(** A text without fence, then a line feed and a closing fence. *)
Lemma replace_all_closing_fence (u : string) :
  m fence = Some 3%nat ->
  has_fence u = false ->
  replace_all m O (u ++ String Str.LF fence) = u ++ String Str.LF EmptyString.
Proof.
  intros Hm3. induction u as [|a u IH]; intros Hu.
  - cbn [String.append].
    rewrite replace_unmatched by reflexivity.
    f_equal. unfold fence in *. cbn [replace_all]. now rewrite Hm3.
  - cbn [has_fence] in Hu. apply orb_false_iff in Hu as [Ha Hu].
    cbn [String.append].
    rewrite replace_unmatched; [now rewrite IH|].
    clear IH. cbn [starts_with fence] in Ha |- *.
    destruct (Ascii.eqb "`" a); [|reflexivity]. cbn [andb] in Ha |- *.
    destruct u as [|b u]; [reflexivity|].
    cbn [String.append starts_with] in Ha |- *.
    destruct (Ascii.eqb "`" b); [|reflexivity]. cbn [andb] in Ha |- *.
    destruct u as [|c u]; [reflexivity|].
    cbn [String.append starts_with] in Ha |- *.
    destruct (Ascii.eqb "`" c); [discriminate | reflexivity].
Qed.

End Fences.

Lemma replace_all_skip (m : string -> option nat) (x s : string) :
  replace_all m (String.length x) (x ++ s) = replace_all m O s.
Proof.
  induction x as [|a x IH]; [reflexivity|].
  cbn [String.length String.append replace_all]. exact IH.
Qed.

(** A match at the start is dropped. *)
Lemma replace_all_match (m : string -> option nat) (a : ascii)
  (x s : string) :
  m (String a x ++ s) = Some (String.length (String a x)) ->
  replace_all m O (String a x ++ s) = replace_all m O s.
Proof.
  intros E. cbn [String.append replace_all] in E |- *.
  rewrite E. cbn [String.length]. apply replace_all_skip.
Qed.

Lemma starts_with_app (p s w : string) :
  starts_with p s = true -> starts_with p (s ++ w) = true.
Proof.
  revert s. induction p as [|a p IH]; intros s Hs; [reflexivity|].
  destruct s as [|b s]; [discriminate|].
  cbn [starts_with String.append] in Hs |- *.
  apply andb_true_iff in Hs as [-> Hs]. now rewrite IH.
Qed.

Lemma starts_with_longer (p q s : string) :
  starts_with (p ++ q) s = true -> starts_with p s = true.
Proof.
  revert s. induction p as [|a p IH]; intros s Hs; [reflexivity|].
  destruct s as [|b s]; [discriminate|].
  cbn [starts_with String.append] in Hs |- *.
  apply andb_true_iff in Hs as [-> Hs]. now rewrite (IH _ Hs).
Qed.

Lemma fence_json_fence (s : string) (n : nat) :
  fence_json s = Some n -> starts_with fence s = true /\ (1 <= n)%nat.
Proof.
  unfold fence_json.
  destruct (starts_with "```json" s) eqn:E1.
  - intros [= <-]. split; [|lia].
    now apply (starts_with_longer fence "json").
  - destruct (starts_with "```" s) eqn:E2; [|discriminate].
    intros [= <-]. split; [exact E2 | lia].
Qed.

Lemma fence_fence_json (s : string) :
  starts_with fence s = true -> fence_json s <> None.
Proof.
  unfold fence_json, fence. intros ->.
  destruct (starts_with "```json" s); discriminate.
Qed.

Lemma fence_json_nl_fence (s : string) (n : nat) :
  fence_json_nl s = Some n -> starts_with fence s = true /\ (1 <= n)%nat.
Proof.
  unfold fence_json_nl.
  destruct (starts_with "```json" s) eqn:E1.
  - intros [= <-]. split; [|destruct (LF_at 7 s); lia].
    now apply (starts_with_longer fence "json").
  - destruct (starts_with "```" s) eqn:E2; [|discriminate].
    intros [= <-]. split; [exact E2 | destruct (LF_at 3 s); lia].
Qed.

Lemma fence_fence_json_nl (s : string) :
  starts_with fence s = true -> fence_json_nl s <> None.
Proof.
  unfold fence_json_nl, fence. intros ->.
  destruct (starts_with "```json" s); discriminate.
Qed.

End TextFacts.

Module TrimFacts.
Import Text.

Lemma has_fence_tail (a : ascii) (s : string) :
  has_fence (String a s) = false -> has_fence s = false.
Proof. cbn [has_fence]. intros E. now apply orb_false_iff in E. Qed.

Lemma has_fence_app_l (x w : string) :
  has_fence (x ++ w) = false -> has_fence x = false.
Proof.
  induction x as [|a x IH]; intros E.
  - reflexivity.
  - cbn [String.append has_fence] in E |- *.
    apply orb_false_iff in E as [E1 E2].
    rewrite (IH E2), orb_false_r.
    destruct (starts_with fence (String a x)) eqn:F; [|reflexivity].
    apply (TextFacts.starts_with_app _ _ w) in F.
    cbn [String.append] in F. congruence.
Qed.

Lemma has_fence_trim_start (s : string) :
  has_fence s = false -> has_fence (trim_start s) = false.
Proof.
  induction s as [|a s IH]; intros E; [reflexivity|].
  cbn [trim_start]. destruct (is_space a); [|exact E].
  apply IH. now apply has_fence_tail in E.
Qed.

(** What [trim_end] drops is a suffix. *)
Lemma trim_end_prefix (s : string) : exists w, s = trim_end s ++ w.
Proof.
  induction s as [|a s (w & IH)]; [now exists EmptyString|].
  cbn [trim_end]. destruct (trim_end s) as [|b r] eqn:E.
  - destruct (is_space a).
    + now exists (String a s).
    + exists s. reflexivity.
  - exists w. cbn [String.append]. now rewrite IH at 1.
Qed.

Lemma has_fence_trim (s : string) :
  has_fence s = false -> has_fence (trim s) = false.
Proof.
  intros E. unfold trim. apply has_fence_trim_start in E.
  destruct (trim_end_prefix (trim_start s)) as (w & Hw).
  rewrite Hw in E. now apply has_fence_app_l in E.
Qed.

Lemma trim_end_snoc (s : string) (c : ascii) :
  is_space c = true ->
  trim_end (s ++ String c EmptyString) = trim_end s.
Proof.
  intros Hc. induction s as [|a s IH]; cbn [String.append trim_end].
  - now rewrite Hc.
  - now rewrite IH.
Qed.

Lemma trim_end_cons (a : ascii) (s : string) :
  trim_end (String a s)
  = match trim_end s with
    | EmptyString => if is_space a then EmptyString else String a EmptyString
    | r => String a r
    end.
Proof. reflexivity. Qed.

Lemma trim_end_idem (s : string) : trim_end (trim_end s) = trim_end s.
Proof.
  induction s as [|a s IH]; [reflexivity|].
  rewrite trim_end_cons. destruct (trim_end s) as [|b r] eqn:E.
  - destruct (is_space a) eqn:Ha; [reflexivity|].
    rewrite trim_end_cons. cbn [trim_end]. now rewrite Ha.
  - rewrite trim_end_cons, IH. reflexivity.
Qed.

(** The first character of a text that [trim_start] leaves alone stays
    first when the end is trimmed. *)
Lemma trim_start_trim_end (s : string) :
  trim_start s = s -> trim_start (trim_end s) = trim_end s.
Proof.
  destruct s as [|a s]; [reflexivity|].
  cbn [trim_start trim_end].
  destruct (is_space a) eqn:Ha.
  - intros E. exfalso.
    assert (L : forall t, (String.length (trim_start t) <= String.length t)%nat).
    { induction t as [|b t IHt]; cbn [trim_start String.length]; [lia|].
      destruct (is_space b); cbn [String.length]; lia. }
    pose proof (L s) as Hl. rewrite E in Hl. cbn [String.length] in Hl. lia.
  - intros _. destruct (trim_end s); cbn [trim_start]; now rewrite Ha.
Qed.

Lemma trim_start_idem (s : string) : trim_start (trim_start s) = trim_start s.
Proof.
  induction s as [|a s IH]; [reflexivity|].
  cbn [trim_start]. destruct (is_space a) eqn:Ha; [exact IH|].
  cbn [trim_start]. now rewrite Ha.
Qed.

Lemma trim_idem (s : string) : trim (trim s) = trim s.
Proof.
  unfold trim.
  rewrite (trim_start_trim_end (trim_start s)) by apply trim_start_idem.
  apply trim_end_idem.
Qed.

(** A trimmed text between two line feeds. *)
Lemma trim_between_LF (body : string) :
  trim body = body ->
  trim (String Str.LF (body ++ String Str.LF EmptyString)) = body.
Proof.
  intros Hb. unfold trim at 1. cbn [trim_start].
  change (is_space Str.LF) with true. cbv iota.
  assert (Hs : trim_start body = body).
  { rewrite <- Hb at 1. unfold trim.
    rewrite trim_start_trim_end by apply trim_start_idem.
    exact Hb. }
  destruct body as [|a body]; [reflexivity|].
  cbn [String.append trim_start] in Hs |- *.
  destruct (is_space a) eqn:Ha.
  - exfalso.
    assert (L : forall t, (String.length (trim_start t) <= String.length t)%nat).
    { induction t as [|b t IHt]; cbn [trim_start String.length]; [lia|].
      destruct (is_space b); cbn [String.length]; lia. }
    pose proof (L body) as Hl. rewrite Hs in Hl. cbn [String.length] in Hl. lia.
  - change (String a (body ++ String Str.LF EmptyString))
      with (String a body ++ String Str.LF EmptyString).
    rewrite trim_end_snoc by reflexivity.
    unfold trim in Hb. cbn [trim_start] in Hb. now rewrite Ha in Hb.
Qed.

Lemma trim_before_LF (body : string) :
  trim body = body -> trim (body ++ String Str.LF EmptyString) = body.
Proof.
  intros Hb.
  pose proof (trim_between_LF body Hb) as E.
  unfold trim in E |- *. cbn [trim_start] in E.
  change (is_space Str.LF) with true in E. exact E.
Qed.

(** A trimmed text neither starts nor ends with white space. *)
Lemma trim_start_head (s : string) (a : ascii) (r : string) :
  trim_start s = String a r -> is_space a = false.
Proof.
  induction s as [|b s IH]; [discriminate|].
  cbn [trim_start]. destruct (is_space b) eqn:Hb; [exact IH|].
  now intros [= <- _].
Qed.

Lemma trim_end_head (s : string) (a : ascii) (r : string) :
  trim_end s = String a r -> exists s', s = String a s'.
Proof.
  destruct s as [|b s]; [discriminate|].
  rewrite trim_end_cons.
  destruct (trim_end s); [destruct (is_space b)|];
    intros [= <- _]; eauto.
Qed.

Lemma trim_end_last (s r : string) (a : ascii) :
  trim_end s = r ++ String a EmptyString -> is_space a = false.
Proof.
  revert r. induction s as [|b s IH]; intros r.
  - destruct r; discriminate.
  - rewrite trim_end_cons. destruct (trim_end s) as [|c t] eqn:E.
    + destruct (is_space b) eqn:Hb.
      * destruct r; discriminate.
      * destruct r as [|x [|y r]]; cbn [String.append];
          intros [= -> ]; try assumption; discriminate.
    + destruct r as [|x r]; cbn [String.append].
      * discriminate.
      * intros [= _ E']. now apply (IH r).
Qed.

Lemma trim_ends (s : string) :
  (forall a r, trim s = String a r -> is_space a = false)
  /\ (forall r a, trim s = r ++ String a EmptyString -> is_space a = false).
Proof.
  unfold trim. split.
  - intros a r E. destruct (trim_end_head _ _ _ E) as (s' & Hs').
    now apply (trim_start_head s a s').
  - intros r a. apply trim_end_last.
Qed.

End TrimFacts.

(** * Further properties *)

Import Text.

(** X1: the text the calendar converter hands to [JSON.parse] holds no code
    fence and no white space at either end, whatever the response was, and
    cleaning it once more changes nothing. *)
Theorem cleanedText_clean (content : list Upload.ContentItem) :
  has_fence (Upload.cleanedText content) = false
  /\ (forall a r, Upload.cleanedText content = String a r ->
        is_space a = false)
  /\ (forall r a, Upload.cleanedText content = r ++ String a EmptyString ->
        is_space a = false)
  /\ trim (replace_all fence_json O (Upload.cleanedText content))
     = Upload.cleanedText content.
Proof.
  unfold Upload.cleanedText.
  set (t := replace_all fence_json O (Upload.textContent content)).
  assert (Hf : has_fence (trim t) = false).
  { apply TrimFacts.has_fence_trim.
    apply (TextFacts.replace_all_no_fence fence_json
             TextFacts.fence_json_fence TextFacts.fence_fence_json). }
  split; [exact Hf|].
  split; [apply TrimFacts.trim_ends|]. split; [apply TrimFacts.trim_ends|].
  rewrite (TextFacts.replace_all_fence_free fence_json
             TextFacts.fence_json_fence _ Hf).
  apply TrimFacts.trim_idem.
Qed.

(** X2: when the texts of the response make up a trimmed text [body]
    without fence, either bare or between an opening fence, with or without
    the word [json], and a closing fence, each on a line of its own, the
    text handed to [JSON.parse] is [body]. *)
Theorem cleanedText_unwraps (content : list Upload.ContentItem)
  (body : string) :
  has_fence body = false ->
  trim body = body ->
  Upload.textContent content = body
  \/ Upload.textContent content
     = "```json" ++ String Str.LF (body ++ String Str.LF "```")
  \/ Upload.textContent content
     = "```" ++ String Str.LF (body ++ String Str.LF "```") ->
  Upload.cleanedText content = body.
Proof.
  intros Hf Ht Hc. unfold Upload.cleanedText.
  assert (Hu : has_fence (String Str.LF body) = false).
  { cbn [has_fence]. now rewrite Hf. }
  pose proof (TextFacts.replace_all_closing_fence fence_json
                TextFacts.fence_json_fence (String Str.LF body)
                eq_refl Hu) as Hr.
  cbn [String.append] in Hr. unfold fence in Hr.
  destruct Hc as [-> | [-> | ->]].
  - now rewrite (TextFacts.replace_all_fence_free fence_json
                   TextFacts.fence_json_fence _ Hf).
  - rewrite (TextFacts.replace_all_match fence_json "`" "``json") by reflexivity.
    rewrite Hr. now apply TrimFacts.trim_between_LF.
  - rewrite (TextFacts.replace_all_match fence_json "`" "``") by reflexivity.
    rewrite Hr. now apply TrimFacts.trim_between_LF.
Qed.

Lemma cleanedText_unwraps_witness :
  Upload.cleanedText
    [{| Upload.item_type := "image"; Upload.item_text := Some "ignored" |};
     {| Upload.item_type := "text";
        Upload.item_text :=
          Some ("```json" ++ String Str.LF ("[]" ++ String Str.LF "```")) |}]
  = "[]".
Proof.
  apply cleanedText_unwraps; [reflexivity | reflexivity |].
  right. left. reflexivity.
Defined.

(** X3: the text the course advisor hands to [JSON.parse] holds no code
    fence and no white space at either end, whatever the answer was, and
    cleaning it once more changes nothing. *)
Theorem cleanText_clean (text : string) :
  has_fence (Advisor.cleanText text) = false
  /\ (forall a r, Advisor.cleanText text = String a r -> is_space a = false)
  /\ (forall r a, Advisor.cleanText text = r ++ String a EmptyString ->
        is_space a = false)
  /\ Advisor.cleanText (Advisor.cleanText text) = Advisor.cleanText text.
Proof.
  unfold Advisor.cleanText.
  set (t := replace_all fence_json_nl O text).
  assert (Hf : has_fence (trim t) = false).
  { apply TrimFacts.has_fence_trim.
    apply (TextFacts.replace_all_no_fence fence_json_nl
             TextFacts.fence_json_nl_fence TextFacts.fence_fence_json_nl). }
  split; [exact Hf|].
  split; [apply TrimFacts.trim_ends|]. split; [apply TrimFacts.trim_ends|].
  rewrite (TextFacts.replace_all_fence_free fence_json_nl
             TextFacts.fence_json_nl_fence _ Hf).
  apply TrimFacts.trim_idem.
Qed.

(** X4: the course advisor reads a trimmed answer [body] without fence as
    it is, and so when it stands between an opening fence, with or without
    the word [json], and a closing fence, each on a line of its own. *)
Theorem cleanText_unwraps (text body : string) :
  has_fence body = false ->
  trim body = body ->
  text = body
  \/ text = "```json" ++ String Str.LF (body ++ String Str.LF "```")
  \/ text = "```" ++ String Str.LF (body ++ String Str.LF "```") ->
  Advisor.cleanText text = body.
Proof.
  intros Hf Ht Hc. unfold Advisor.cleanText.
  pose proof (TextFacts.replace_all_closing_fence fence_json_nl
                TextFacts.fence_json_nl_fence body eq_refl Hf) as Hr.
  unfold fence in Hr.
  destruct Hc as [-> | [-> | ->]].
  - now rewrite (TextFacts.replace_all_fence_free fence_json_nl
                   TextFacts.fence_json_nl_fence _ Hf).
  - change ("```json" ++ String Str.LF (body ++ String Str.LF "```"))
      with (String "`" ("``json" ++ String Str.LF EmptyString)
            ++ (body ++ String Str.LF "```")).
    rewrite TextFacts.replace_all_match by reflexivity.
    rewrite Hr. now apply TrimFacts.trim_before_LF.
  - change ("```" ++ String Str.LF (body ++ String Str.LF "```"))
      with (String "`" ("``" ++ String Str.LF EmptyString)
            ++ (body ++ String Str.LF "```")).
    rewrite TextFacts.replace_all_match by reflexivity.
    rewrite Hr. now apply TrimFacts.trim_before_LF.
Qed.

Lemma cleanText_unwraps_witness :
  Advisor.cleanText ("```" ++ String Str.LF ("{}" ++ String Str.LF "```"))
  = "{}".
Proof.
  apply cleanText_unwraps; [reflexivity | reflexivity |].
  right. right. reflexivity.
Defined.

(** X5: of a data URL whose part before the first comma is [p], the
    request carries what stands between the first and the second comma:
    the whole rest when it has no comma, as base64 text has none; of a text
    without comma it carries [undefined]. *)
Theorem base64_of_data_url (p q : string) :
  Str.has_char "," p = false ->
  Upload.base64_of (p ++ "," ++ q) = Some (hd EmptyString (Str.split "," q))
  /\ (Str.has_char "," q = false -> Upload.base64_of (p ++ "," ++ q) = Some q)
  /\ Upload.base64_of p = None.
Proof.
  intros Hp. unfold Upload.base64_of. cbn [String.append].
  rewrite StrFacts.split_app by exact Hp.
  rewrite (StrFacts.split_none _ _ Hp). cbn [nth_error].
  split; [|split; [|reflexivity]].
  - pose proof (StrFacts.split_not_nil "," q) as Hn.
    destruct (Str.split "," q); [congruence | reflexivity].
  - intros Hq. now rewrite (StrFacts.split_none _ _ Hq).
Qed.

Lemma base64_of_data_url_witness :
  Upload.base64_of ("data:image/png;base64" ++ "," ++ "iVBORw0KGgo=")
  = Some "iVBORw0KGgo=".
Proof.
  exact (proj1 (proj2 (base64_of_data_url "data:image/png;base64"
                         "iVBORw0KGgo=" eq_refl)) eq_refl).
Defined.

Module UploadFacts.
Import Upload.

(** The events a step leaves. *)
Lemma step_events (env : Env) (a : Action) (st : State) :
  events (step env a st) = events st
  \/ events (step env a st) = []
  \/ exists content,
       a = Settled (Data (Some content)) /\ content <> []
       /\ JSON_parse env (cleanedText content)
          = Some (Events (events (step env a st)))
       /\ events (step env a st) <> [].
Proof.
  destruct a as [[|]|result|f]; cbn [step].
  - right. left. reflexivity.
  - now left.
  - now left.
  - unfold processImage_finish.
    destruct f as [|[[|c content]|]]; cbn [processImage_try];
      try (now left).
    destruct (JSON_parse env (cleanedText (c :: content)))
      as [[|[|e es]]|] eqn:E; try (now left).
    right. right. exists (c :: content).
    split; [reflexivity|]. split; [discriminate|].
    split; [exact E | discriminate].
Qed.

Lemma run_events (env : Env) (actions : list Action) (st : State) :
  events (run env actions st) = events st
  \/ events (run env actions st) = []
  \/ exists content,
       In (Settled (Data (Some content))) actions /\ content <> []
       /\ JSON_parse env (cleanedText content)
          = Some (Events (events (run env actions st)))
       /\ events (run env actions st) <> [].
Proof.
  revert st. induction actions as [|a actions IH]; intros st; [now left|].
  change (run env (a :: actions) st) with (run env actions (step env a st)).
  destruct (IH (step env a st)) as [E | [E | (c & Hi & Hc & Hp & Hn)]].
  - rewrite E.
    destruct (step_events env a st) as [E' | [E' | (c & -> & Hc & Hp & Hn)]].
    + now left.
    + right. now left.
    + right. right. exists c. repeat split; auto. now left.
  - right. now left.
  - right. right. exists c. repeat split; auto. now right.
Qed.

End UploadFacts.

(** X6: however the steps of uploads alternate, the events of the
    component are none or the non-empty array [JSON.parse] made of the
    cleaned text of a non-empty response that was received.  From every
    state so reached, when a file is chosen and read and its request ends
    with no other step in between, the component no longer loads and shows
    the image, and either it holds events and no error message, the events
    being those [JSON.parse] made of this response, or it holds no event
    and an error message. *)
Theorem upload_outcome (env : Upload.Env) (actions : list Upload.Action) :
  (Upload.events (Upload.run env actions Upload.initial) = []
   \/ exists content,
        In (Upload.Settled (Upload.Data (Some content))) actions
        /\ content <> []
        /\ Upload.JSON_parse env (Upload.cleanedText content)
           = Some (Upload.Events
                     (Upload.events (Upload.run env actions Upload.initial)))
        /\ Upload.events (Upload.run env actions Upload.initial) <> [])
  /\ forall (result : string) (f : Upload.Fetched) (st' : Upload.State),
       st' = Upload.run env
               [Upload.Choose true; Upload.Loaded result; Upload.Settled f]
               (Upload.run env actions Upload.initial) ->
       Upload.loading st' = false
       /\ Upload.image st' = Some result
       /\ ((Upload.events st' <> [] /\ Upload.error st' = ""
            /\ exists content,
                 f = Upload.Data (Some content) /\ content <> []
                 /\ Upload.JSON_parse env (Upload.cleanedText content)
                    = Some (Upload.Events (Upload.events st')))
           \/ (Upload.events st' = [] /\ Upload.error st' <> "")).
Proof.
  split.
  - destruct (UploadFacts.run_events env actions Upload.initial)
      as [E | [E | H]]; [left; exact E | left; exact E | right; exact H].
  - intros result f st' ->.
    set (st := Upload.run env actions Upload.initial).
    cbn [Upload.run fold_left Upload.step].
    unfold Upload.processImage_finish, Upload.onload_start,
      Upload.processImage_start, Upload.handleImageUpload_start.
    split; [reflexivity|].
    destruct f as [|[[|c content]|]]; cbn [Upload.processImage_try];
      try (split; [reflexivity|]; right; split; [reflexivity | discriminate]).
    destruct (Upload.JSON_parse env (Upload.cleanedText (c :: content)))
      as [[|[|e es]]|] eqn:E;
      try (split; [reflexivity|]; right; split; [reflexivity | discriminate]).
    split; [reflexivity|]. left.
    split; [discriminate|]. split; [reflexivity|].
    exists (c :: content). split; [reflexivity|]. split; [discriminate|].
    exact E.
Qed.

Module PhotoFacts.
Import PhotoUI.

Lemma choose_well_formed (files : list File) (refusal : string) (u : UI) :
  well_formed u -> well_formed (choose files refusal u).
Proof.
  intros [Hf Hl]. unfold choose.
  destruct files as [|f files]; [now split|].
  destruct (is_image f) eqn:Hi; split; cbn [file core with_error Photo.loading].
  - now intros g [= <-].
  - discriminate.
  - exact Hf.
  - exact Hl.
Qed.

Lemma step_well_formed (api_key : bool) (a : Action) (u : UI) :
  well_formed u -> well_formed (step api_key a u).
Proof.
  intros Hu. destruct a as [t|fs|fs| |r|]; cbn [step].
  - unfold handleDrag.
    destruct (String.eqb t "dragenter" || String.eqb t "dragover");
      [exact Hu|].
    destruct (String.eqb t "dragleave"); exact Hu.
  - unfold handleDrop. apply choose_well_formed. exact Hu.
  - unfold handleFileChange. now apply choose_well_formed.
  - destruct Hu as [Hf Hl]. unfold generateICS_start.
    destruct (file u) as [f|] eqn:E.
    + destruct api_key; split;
        cbn [file core with_error Photo.loading]; rewrite ?E; auto;
        discriminate.
    + split; cbn [file core with_error Photo.loading]; rewrite ?E; auto.
  - destruct Hu as [Hf Hl]. split; cbn [file core]; [exact Hf|].
    unfold Photo.on_response.
    destruct (Photo.ok r); [destruct (Photo.content r)|];
      cbn [Photo.loading]; discriminate.
  - destruct Hu as [Hf Hl]. split; cbn [read_failed file core Photo.loading];
      [exact Hf | discriminate].
Qed.

Lemma run_well_formed (api_key : bool) (actions : list Action) (u : UI) :
  well_formed u -> well_formed (run api_key actions u).
Proof.
  revert u. induction actions as [|a actions IH]; intros u Hu; [exact Hu|].
  apply IH. now apply step_well_formed.
Qed.



Lemma step_idle (a : Action) (u : UI) :
  Photo.loading (core u) = false ->
  Photo.loading (core (step false a u)) = false.
Proof.
  intros Hl. destruct a as [t|fs|fs| |r|]; cbn [step].
  - unfold handleDrag.
    destruct (String.eqb t "dragenter" || String.eqb t "dragover");
      [exact Hl|].
    destruct (String.eqb t "dragleave"); exact Hl.
  - unfold handleDrop, choose.
    destruct fs as [|f fs]; [exact Hl|]. destruct (is_image f); exact Hl.
  - unfold handleFileChange, choose.
    destruct fs as [|f fs]; [exact Hl|]. destruct (is_image f); exact Hl.
  - unfold generateICS_start. destruct (file u); exact Hl.
  - cbn [core]. unfold Photo.on_response.
    destruct (Photo.ok r); [destruct (Photo.content r)|]; reflexivity.
  - reflexivity.
Qed.

Lemma run_idle (actions : list Action) (u : UI) :
  Photo.loading (core u) = false ->
  Photo.loading (core (run false actions u)) = false.
Proof.
  revert u. induction actions as [|a actions IH]; intros u Hu; [exact Hu|].
  apply IH. now apply step_idle.
Qed.

End PhotoFacts.

(** X7 (Photo.jsx): whatever is dragged, dropped, chosen, requested and
    answered, the chosen file, if any, has a type that starts with
    [image/], the component loads only while a file is chosen, and the
    media type of a request starts with [image/]. *)
Theorem chosen_file_is_image (api_key : bool)
  (actions : list PhotoUI.Action) :
  (forall f, PhotoUI.file (PhotoUI.run api_key actions PhotoUI.initial) = Some f ->
     starts_with "image/" (PhotoUI.type f) = true)
  /\ (Photo.loading (PhotoUI.core (PhotoUI.run api_key actions PhotoUI.initial))
      = true ->
      PhotoUI.file (PhotoUI.run api_key actions PhotoUI.initial) <> None)
  /\ (forall result rq,
        PhotoUI.request_of (PhotoUI.run api_key actions PhotoUI.initial) result
        = Some rq ->
        starts_with "image/" (PhotoUI.media_type rq) = true).
Proof.
  assert (W : PhotoUI.well_formed
                (PhotoUI.run api_key actions PhotoUI.initial)).
  { apply PhotoFacts.run_well_formed. split; cbn; [discriminate|discriminate]. }
  destruct W as [Hf Hl]. split; [exact Hf|]. split; [exact Hl|].
  intros result rq. unfold PhotoUI.request_of.
  destruct (PhotoUI.file (PhotoUI.run api_key actions PhotoUI.initial))
    as [f|] eqn:E; [|discriminate].
  intros [= <-]. cbn [PhotoUI.media_type]. now apply Hf.
Qed.


(** X13 (Photo.jsx): when the API key is not configured, the component
    never starts loading, whatever is dragged, dropped, chosen, requested
    and answered. *)
Theorem no_key_never_loads (actions : list PhotoUI.Action) :
  Photo.loading (PhotoUI.core (PhotoUI.run false actions PhotoUI.initial))
  = false.
Proof. now apply PhotoFacts.run_idle. Qed.

Module YearFacts.
Import JSDate ISO Converter Layout Stamp JSDateFacts ISOFacts FormatFacts.

(** The value for every year: the year as [toISOString] writes it, less
    its hyphen. *)
Lemma format_any_year (t : Z) :
  hd EmptyString (Str.split "." (Str.remove_chars ["-"; ":"]%char (ISOString t)))
  ++ "Z"
  = Str.remove_chars ["-"; ":"]%char (year_string (YearFromTime t))
    ++ after_year t.
Proof.
  unfold ISOString, after_year.
  set (y := Str.remove_chars ["-"; ":"]%char (year_string (YearFromTime t))).
  assert (Hy : Str.has_char "." y = false).
  { unfold y, year_string. apply StrFacts.has_char_remove_chars.
    destruct (_ && _); [now apply pad_has_char|].
    rewrite StrFacts.has_char_app, pad_has_char by reflexivity.
    now destruct (_ <? _). }
  repeat rewrite StrFacts.remove_chars_app.
  repeat rewrite remove_chars_pad. fold y.
  cbn [Str.remove_chars existsb Ascii.eqb Bool.eqb orb String.append].
  set (a := y ++ pad 2 (MonthFromTime t + 1)
            ++ pad 2 (DateFromTime t) ++ "T" ++ pad 2 (HourFromTime t)
            ++ pad 2 (MinFromTime t) ++ pad 2 (SecFromTime t)).
  match goal with
  | |- hd _ (Str.split _ ?x) ++ _ = _ =>
      replace x with (a ++ String "." (pad 3 (msFromTime t) ++ "Z"))
  end.
  - rewrite StrFacts.split_app; [cbn [hd]; unfold a|].
    + repeat rewrite StrFacts.app_assoc. cbn [String.append].
      repeat rewrite StrFacts.app_assoc. reflexivity.
    + unfold a.
      repeat (rewrite StrFacts.has_char_app || cbn [Str.has_char]).
      repeat rewrite (pad_has_char ".") by reflexivity.
      now rewrite Hy.
  - unfold a. repeat rewrite StrFacts.app_assoc. cbn [String.append].
    repeat rewrite StrFacts.app_assoc. reflexivity.
Qed.

Lemma remove_hyphen_year (y : Z) :
  Str.remove_chars ["-"; ":"]%char (year_string y)
  = if (0 <=? y) && (y <=? 9999) then pad 4 y
    else if y <? 0 then pad 6 (Z.abs y)
    else "+" ++ pad 6 (Z.abs y).
Proof.
  unfold year_string. destruct (_ && _); [apply remove_chars_pad|].
  destruct (y <? 0);
    cbn [String.append Str.remove_chars existsb Ascii.eqb Bool.eqb orb];
    now rewrite remove_chars_pad.
Qed.

Lemma digit_not_T (a : ascii) : Str.is_digit a = true -> Ascii.eqb a "T" = false.
Proof.
  intros Ha. destruct (Ascii.eqb_spec a "T") as [->|]; [discriminate|reflexivity].
Qed.

(** Ten digits before the [T] do not match the pattern. *)
Lemma six_digit_year_no_match (y : Z) (t : Z) :
  is_basic_utc (pad 6 y ++ after_year t) = false.
Proof.
  unfold after_year.
  destruct (pad_first 1 (DateFromTime t)) as (a & r & E & Ha).
  rewrite E.
  assert (R : pad 6 y ++ pad 2 (MonthFromTime t + 1)
              ++ String a r ++ "T" ++ pad 2 (HourFromTime t)
              ++ pad 2 (MinFromTime t) ++ pad 2 (SecFromTime t) ++ "Z"
              = (pad 6 y ++ pad 2 (MonthFromTime t + 1))
                ++ String a (r ++ "T" ++ pad 2 (HourFromTime t)
                             ++ pad 2 (MinFromTime t)
                             ++ pad 2 (SecFromTime t) ++ "Z")).
  { now rewrite StrFacts.app_assoc. }
  rewrite R. unfold is_basic_utc.
  rewrite digits_then_app.
  - now rewrite (digit_not_T a Ha).
  - rewrite StrFacts.all_chars_app. now rewrite !pad_digits.
  - rewrite StrFacts.length_app. now rewrite !pad_length.
Qed.

(** The fields but the milliseconds are those of the whole second. *)
Lemma Day_floor (t : Z) : Day (1000 * (t / 1000)) = Day t.
Proof. unfold Day, msPerDay. zdiv. Qed.

Lemma fields_floor (t : Z) :
  YearFromTime (1000 * (t / 1000)) = YearFromTime t
  /\ MonthFromTime (1000 * (t / 1000)) = MonthFromTime t
  /\ DateFromTime (1000 * (t / 1000)) = DateFromTime t
  /\ HourFromTime (1000 * (t / 1000)) = HourFromTime t
  /\ MinFromTime (1000 * (t / 1000)) = MinFromTime t
  /\ SecFromTime (1000 * (t / 1000)) = SecFromTime t
  /\ msFromTime (1000 * (t / 1000)) = 0.
Proof.
  unfold DateFromTime, MonthFromTime, InLeapYear, DayWithinYear, YearFromTime.
  rewrite Day_floor. repeat split;
    unfold HourFromTime, MinFromTime, SecFromTime, msFromTime, msPerHour,
      msPerMinute, msPerSecond; zdiv.
Qed.

Lemma basic_utc_floor (t : Z) : basic_utc (1000 * (t / 1000)) = basic_utc t.
Proof.
  unfold basic_utc.
  destruct (fields_floor t) as (-> & -> & -> & -> & -> & -> & _).
  reflexivity.
Qed.

(** The timestamp of an instant in a year of four digits tells its
    second. *)
Lemma basic_utc_second (t : Z) :
  year4 t -> Decoder.parse_utc (basic_utc t) = Some (1000 * (t / 1000)).
Proof.
  intros Hy. rewrite <- basic_utc_floor.
  apply DecoderFacts.parse_utc_basic.
  - unfold year4 in *. now rewrite (proj1 (fields_floor t)).
  - apply (fields_floor t).
Qed.

End YearFacts.

(** X9: on every valid date [formatDateToICS] returns the year, the month,
    the day, [T], the hour, the minute, the second and [Z] of the instant in
    UTC, where the year has four digits from 0 to 9999, six digits without
    its minus sign below 0, and a plus sign and six digits above 9999; the
    value matches [^\d{8}T\d{6}Z$] exactly when the year has four
    digits. *)
Theorem formatDateToICS_years (H : Host) (s : string) (t : Z) :
  new_Date H s = Some t ->
  exists v,
    formatDateToICS H s = inl v
    /\ (year4 t -> v = pad 4 (YearFromTime t) ++ Stamp.after_year t)
    /\ (YearFromTime t < 0 ->
        v = pad 6 (- YearFromTime t) ++ Stamp.after_year t)
    /\ (9999 < YearFromTime t ->
        v = "+" ++ pad 6 (YearFromTime t) ++ Stamp.after_year t)
    /\ (is_basic_utc v = true <-> year4 t).
Proof.
  intros E. rewrite (FormatFacts.formatDateToICS_Some H s t E).
  eexists. split; [reflexivity|].
  rewrite YearFacts.format_any_year, YearFacts.remove_hyphen_year.
  unfold year4.
  destruct (Z.leb_spec 0 (YearFromTime t)) as [H0|H0];
    [destruct (Z.leb_spec (YearFromTime t) 9999) as [H9|H9]|]; cbn [andb].
  - split; [intros _; reflexivity|].
    split; [intros; lia|]. split; [intros; lia|].
    split; [intros _; split; lia|].
    intros _. exact (FormatFacts.basic_utc_matches t).
  - destruct (Z.ltb_spec (YearFromTime t) 0); [lia|].
    split; [intros [? ?]; lia|]. split; [intros; lia|].
    split; [intros _; now rewrite Z.abs_eq by lia|].
    split; [|intros [? ?]; lia].
    intros F. exfalso. revert F. unfold is_basic_utc.
    cbn [String.append digits_then].
    change (Str.is_digit "+") with false. discriminate.
  - destruct (Z.ltb_spec (YearFromTime t) 0); [|lia].
    replace (Z.abs (YearFromTime t)) with (- YearFromTime t) by lia.
    split; [intros [? ?]; lia|]. split; [intros _; reflexivity|].
    split; [intros; lia|].
    split; [|intros [? ?]; lia].
    rewrite YearFacts.six_digit_year_no_match. discriminate.
Qed.

Lemma formatDateToICS_years_witness :
  exists v,
    formatDateToICS utc_host "-000001-12-31T23:59:59Z" = inl v
    /\ (YearFromTime (-62167219201000) < 0 ->
        v = pad 6 (- YearFromTime (-62167219201000))
            ++ Stamp.after_year (-62167219201000)).
Proof.
  assert (E : new_Date utc_host "-000001-12-31T23:59:59Z"
              = Some (-62167219201000)) by (vm_compute; reflexivity).
  destruct (formatDateToICS_years utc_host _ _ E) as (v & Hv & _ & Hn & _).
  exists v. split; [exact Hv | exact Hn].
Defined.

(** X10: the values [formatDateToICS] returns for two valid dates in years
    of four digits are equal exactly when the two instants lie in the same
    second: the milliseconds are cut off, and nothing else is lost. *)
Theorem formatDateToICS_same_second (H : Host) (s1 s2 : string) (t1 t2 : Z) :
  new_Date H s1 = Some t1 -> new_Date H s2 = Some t2 ->
  year4 t1 -> year4 t2 ->
  (formatDateToICS H s1 = formatDateToICS H s2 <-> t1 / 1000 = t2 / 1000).
Proof.
  intros E1 E2 Y1 Y2.
  rewrite (FormatFacts.formatDateToICS_year4 H s1 t1 E1 Y1).
  rewrite (FormatFacts.formatDateToICS_year4 H s2 t2 E2 Y2).
  split.
  - intros E0.
    assert (E : basic_utc t1 = basic_utc t2) by congruence.
    pose proof (YearFacts.basic_utc_second t1 Y1) as P1.
    pose proof (YearFacts.basic_utc_second t2 Y2) as P2.
    rewrite E in P1.
    assert (P : 1000 * (t1 / 1000) = 1000 * (t2 / 1000)) by congruence.
    lia.
  - intros E. f_equal.
    rewrite <- (YearFacts.basic_utc_floor t1), <- (YearFacts.basic_utc_floor t2).
    now rewrite E.
Qed.

Lemma formatDateToICS_same_second_witness :
  formatDateToICS utc_host "2025-03-10T09:00:00.250"
  = formatDateToICS utc_host "2025-03-10T09:00:00.750".
Proof.
  assert (E1 : new_Date utc_host "2025-03-10T09:00:00.250"
               = Some 1741597200250) by (vm_compute; reflexivity).
  assert (E2 : new_Date utc_host "2025-03-10T09:00:00.750"
               = Some 1741597200750) by (vm_compute; reflexivity).
  assert (Y1 : year4 1741597200250).
  { unfold year4.
    replace (YearFromTime 1741597200250) with 2025 by (vm_compute; reflexivity).
    lia. }
  assert (Y2 : year4 1741597200750).
  { unfold year4.
    replace (YearFromTime 1741597200750) with 2025 by (vm_compute; reflexivity).
    lia. }
  apply (proj2 (formatDateToICS_same_second utc_host _ _ _ _ E1 E2 Y1 Y2)).
  vm_compute. reflexivity.
Defined.

Module AppendFacts.
Import ISO Converter Layout.

Lemma events_lines_app (H : Host) (clock : nat -> Z) (i : nat)
  (es1 es2 : list CalendarEvent) :
  events_lines H clock i (es1 ++ es2)
  = (events_lines H clock i es1
     ++ events_lines H clock (i + List.length es1) es2)%list.
Proof.
  revert i. induction es1 as [|e es1 IH]; intros i.
  - cbn [List.app events_lines List.length]. now rewrite Nat.add_0_r.
  - cbn [List.app events_lines List.length].
    rewrite IH, <- List.app_assoc.
    now replace (i + S (List.length es1))%nat
      with (S i + List.length es1)%nat by lia.
Qed.

Lemma run_ok_app (H : Host) (clock : nat -> Z) (i : nat)
  (es1 es2 : list CalendarEvent) :
  run_ok H clock i (es1 ++ es2)
  = run_ok H clock i es1 && run_ok H clock (i + List.length es1) es2.
Proof.
  revert i. induction es1 as [|e es1 IH]; intros i.
  - cbn [List.app run_ok List.length andb]. now rewrite Nat.add_0_r.
  - cbn [List.app run_ok List.length]. rewrite IH, !andb_assoc.
    now replace (i + S (List.length es1))%nat
      with (S i + List.length es1)%nat by lia.
Qed.

End AppendFacts.

(** X11: events added at the end leave what is written for the earlier
    events as it is.  When [generateICS] returns a document for a sequence
    of events, it returns one for every initial part of the sequence, and
    the document of the whole is that of the part with, before its last
    line, the lines of the remaining events, numbered and timed after those
    of the part.  When it throws on the part, it throws on the whole. *)
Theorem generateICS_append (H : Host) (clock : nat -> Z)
  (es1 es2 : list CalendarEvent) :
  (forall s, generateICS H clock (es1 ++ es2) = inl s ->
     exists body,
       generateICS H clock es1 = inl (body ++ "END:VCALENDAR")
       /\ s = body
              ++ terminated (events_lines H clock (List.length es1) es2)
              ++ "END:VCALENDAR")
  /\ (forall x, generateICS H clock es1 = inr x ->
        generateICS H clock (es1 ++ es2) = inr x).
Proof.
  rewrite !RunFacts.generateICS_spec, AppendFacts.run_ok_app.
  cbn [Nat.add].
  assert (J : forall es,
            join_lines (calendar_lines H clock es)
            = (header ++ terminated (events_lines H clock O es))
              ++ "END:VCALENDAR").
  { intros es. unfold calendar_lines.
    rewrite List.app_assoc, RunFacts.join_lines_snoc, RunFacts.terminated_app.
    reflexivity. }
  split.
  - intros s Hs.
    destruct (run_ok H clock O es1); [|discriminate].
    destruct (run_ok H clock (List.length es1) es2); [|discriminate].
    cbn [andb] in Hs. injection Hs as <-.
    exists (header ++ terminated (events_lines H clock O es1)).
    split; [now rewrite J|].
    rewrite J, AppendFacts.events_lines_app, RunFacts.terminated_app.
    cbn [Nat.add]. now rewrite !StrFacts.app_assoc.
  - intros x Hx. destruct (run_ok H clock O es1); [discriminate|].
    exact Hx.
Qed.

Module ColorFacts.
Import Advisor.

Lemma le_const_mono (x y : JsNumber) (k : Z) :
  num_le x y -> le_const y k = true -> le_const x k = true.
Proof.
  destruct x as [| |p|], y as [| |q|]; cbn [num_le le_const];
    try tauto; try discriminate.
  intros Hpq Hq. apply Qle_bool_iff in Hq. apply Qle_bool_iff.
  now apply (Qle_trans _ q).
Qed.

Lemma ge_const_mono (x y : JsNumber) (k : Z) :
  num_le x y -> ge_const x k = true -> ge_const y k = true.
Proof.
  destruct x as [| |p|], y as [| |q|]; cbn [num_le ge_const];
    try tauto; try discriminate.
  intros Hpq Hp. apply Qle_bool_iff in Hp. apply Qle_bool_iff.
  now apply (Qle_trans _ p).
Qed.

End ColorFacts.

(** X12 (App.tsx): the colour classes follow the scores.  Of two scores,
    the lower is shown green for difficulty whenever the higher is, and the
    higher red whenever the lower is; the higher is shown purple for career
    relevance whenever the lower is, and the lower gray whenever the higher
    is.  A score that is not a number is shown red for difficulty and gray
    for relevance. *)
Theorem score_colors (x y : Advisor.JsNumber) :
  Advisor.num_le x y ->
  (Advisor.getDifficultyColor y = "text-green-600 bg-green-50" ->
   Advisor.getDifficultyColor x = "text-green-600 bg-green-50")
  /\ (Advisor.getDifficultyColor x = "text-red-600 bg-red-50" ->
      Advisor.getDifficultyColor y = "text-red-600 bg-red-50")
  /\ (Advisor.getRelevanceColor x = "text-purple-600 bg-purple-50" ->
      Advisor.getRelevanceColor y = "text-purple-600 bg-purple-50")
  /\ (Advisor.getRelevanceColor y = "text-gray-600 bg-gray-50" ->
      Advisor.getRelevanceColor x = "text-gray-600 bg-gray-50")
  /\ Advisor.getDifficultyColor Advisor.NaN = "text-red-600 bg-red-50"
  /\ Advisor.getRelevanceColor Advisor.NaN = "text-gray-600 bg-gray-50".
Proof.
  intros Hxy.
  pose proof (ColorFacts.le_const_mono x y 4 Hxy) as L4.
  pose proof (ColorFacts.le_const_mono x y 7 Hxy) as L7.
  pose proof (ColorFacts.ge_const_mono x y 8 Hxy) as G8.
  pose proof (ColorFacts.ge_const_mono x y 5 Hxy) as G5.
  assert (D : (Advisor.getDifficultyColor y = "text-green-600 bg-green-50" ->
               Advisor.getDifficultyColor x = "text-green-600 bg-green-50")
              /\ (Advisor.getDifficultyColor x = "text-red-600 bg-red-50" ->
                  Advisor.getDifficultyColor y = "text-red-600 bg-red-50")).
  { unfold Advisor.getDifficultyColor.
    destruct (Advisor.le_const x 4), (Advisor.le_const x 7),
      (Advisor.le_const y 4), (Advisor.le_const y 7);
      split; intros F; try reflexivity; try discriminate F;
      first [ discriminate (L4 eq_refl) | discriminate (L7 eq_refl) ]. }
  assert (R : (Advisor.getRelevanceColor x = "text-purple-600 bg-purple-50" ->
               Advisor.getRelevanceColor y = "text-purple-600 bg-purple-50")
              /\ (Advisor.getRelevanceColor y = "text-gray-600 bg-gray-50" ->
                  Advisor.getRelevanceColor x = "text-gray-600 bg-gray-50")).
  { unfold Advisor.getRelevanceColor.
    destruct (Advisor.ge_const x 8), (Advisor.ge_const x 5),
      (Advisor.ge_const y 8), (Advisor.ge_const y 5);
      split; intros F; try reflexivity; try discriminate F;
      first [ discriminate (G8 eq_refl) | discriminate (G5 eq_refl) ]. }
  destruct D as [D1 D2], R as [R1 R2].
  repeat split; assumption || reflexivity.
Qed.

Lemma score_colors_witness :
  Advisor.getDifficultyColor (Advisor.Finite (3 # 1))
  = "text-green-600 bg-green-50".
Proof.
  apply (proj1 (score_colors (Advisor.Finite (3 # 1))
                  (Advisor.Finite (7 # 2)) ltac:(cbn; discriminate))).
  reflexivity.
Defined.
